(** * Will.IAM: the Google OAuth2 provider and the roles repository

    A shallow embedding of [oauth2/google.go] and [repositories/roles.go]
    and the properties of the design document that can be stated over it.

    Conventions of the embedding:
    - Go strings are byte strings: [string] of the Standard Library.
    - A Go function returning a pointer and an [error] becomes a computation whose
      outcome is [Ok v], [Err e] or [Panic msg] (a run-time panic, as raised
      by a failed single-value type assertion).
    - The HTTP client, the tokens repository and the clock are external:
      they are the fields of the class [Deps] over an abstract world, and
      every call to the client or the repository is appended to a log.
    - Go leaves the iteration order of [range] over a map unspecified; the
      order visited is any permutation of the entries of the map. *)

From Stdlib Require Import ZArith Ascii String SpecFloat.
From stdpp Require Import gmap strings list fin_maps.

Set Warnings "-register-all".

(** ** Strings: the parts of [strings], [fmt] and [net/url] the code uses *)

Module Strings.

(** [strings.Join(elems, sep)] *)
Fixpoint Join (elems : list string) (sep : string) : string :=
  match elems with
  | [] => ""
  | [e] => e
  | e :: rest => e +:+ sep +:+ Join rest sep
  end.

(** Does the byte [c] occur in [s]? ([strings.IndexByte(s, c) >= 0]) *)
Fixpoint ContainsByte (c : ascii) (s : string) : bool :=
  match s with
  | EmptyString => false
  | String d r => if Ascii.eqb c d then true else ContainsByte c r
  end.

(** [strings.Cut(s, sep)] for a one-byte separator: the text before the
    first [sep], and the text after it when [sep] occurs. *)
Fixpoint Cut (sep : ascii) (s : string) : string * option string :=
  match s with
  | EmptyString => (EmptyString, None)
  | String c r =>
      if Ascii.eqb c sep then (EmptyString, Some r)
      else let '(before, after) := Cut sep r in (String c before, after)
  end.

(** [strings.Split(s, sep)] for a one-byte separator. *)
Fixpoint Split (sep : ascii) (s : string) : list string :=
  match s with
  | EmptyString => [EmptyString]
  | String c r =>
      if Ascii.eqb c sep then EmptyString :: Split sep r
      else match Split sep r with
           | [] => [String c EmptyString]
           | p :: ps => String c p :: ps
           end
  end.

(** ASCII upper-casing of one byte and of a string. *)
Definition upper (c : ascii) : ascii :=
  let n := N_of_ascii c in
  if ((97 <=? n) && (n <=? 122))%N then ascii_of_N (n - 32) else c.

Fixpoint ToUpper (s : string) : string :=
  match s with
  | EmptyString => EmptyString
  | String c r => String (upper c) (ToUpper r)
  end.

(** [strings.EqualFold] restricted to ASCII letters. *)
Definition EqualFold (s t : string) : bool := String.eqb (ToUpper s) (ToUpper t).

End Strings.

Module URL.

Definition is_alnum (c : ascii) : bool :=
  let n := N_of_ascii c in
  (((48 <=? n) && (n <=? 57)) || ((65 <=? n) && (n <=? 90))
   || ((97 <=? n) && (n <=? 122)))%N.

(** [shouldEscape(c, encodeQueryComponent)]: everything but the unreserved
    characters of RFC 3986 is escaped. *)
Definition shouldEscape (c : ascii) : bool :=
  negb (is_alnum c || Strings.ContainsByte c "-_.~").

Definition upperhex (n : N) : ascii :=
  match String.get (N.to_nat n) "0123456789ABCDEF" with
  | Some c => c
  | None => "0"%char
  end.

(** [url.QueryEscape] *)
Fixpoint QueryEscape (s : string) : string :=
  match s with
  | EmptyString => EmptyString
  | String c r =>
      if Ascii.eqb c " " then String "+" (QueryEscape r)
      else if shouldEscape c then
        let n := N_of_ascii c in
        String "%" (String (upperhex (n / 16)) (String (upperhex (n mod 16)) (QueryEscape r)))
      else String c (QueryEscape r)
  end.

Definition unhex (c : ascii) : option N :=
  let n := N_of_ascii c in
  if ((48 <=? n) && (n <=? 57))%N then Some (n - 48)%N
  else if ((97 <=? n) && (n <=? 102))%N then Some (n - 97 + 10)%N
  else if ((65 <=? n) && (n <=? 70))%N then Some (n - 65 + 10)%N
  else None.

(** [url.QueryUnescape]: [None] stands for its [EscapeError]. *)
Fixpoint QueryUnescape (s : string) : option string :=
  match s with
  | EmptyString => Some EmptyString
  | String "%" (String a (String b r)) =>
      match unhex a, unhex b with
      | Some x, Some y => String (ascii_of_N (16 * x + y)) <$> QueryUnescape r
      | _, _ => None
      end
  | String "%" _ => None
  | String "+" r => String " " <$> QueryUnescape r
  | String c r => String c <$> QueryUnescape r
  end.

(** [url.Values] as the sequence of its [Add] calls. *)
Abbreviation Values := (list (string * string)).

Definition Add (v : Values) (key value : string) : Values := v ++ [(key, value)].

(** [v[key]]: the values recorded under [key], oldest first. *)
Definition index (v : Values) (key : string) : list string :=
  snd <$> filter (λ kv, kv.1 = key) v.

(** [v.Get(key)]: the first value under [key], or the empty string. *)
Definition Get (v : Values) (key : string) : string := default "" (head (index v key)).

Fixpoint insert_sorted (kv : string * string) (l : list (string * string)) :=
  match l with
  | [] => [kv]
  | kv' :: rest =>
      if String.leb kv.1 kv'.1 then kv :: l else kv' :: insert_sorted kv rest
  end.

(** [v.Encode()]: [key=value] pairs, both escaped, sorted by key; values under
    one key keep their order ([insert_sorted] places a later pair after the
    earlier ones of its key). *)
Definition Encode (v : Values) : string :=
  Strings.Join
    ((λ kv, QueryEscape kv.1 +:+ "=" +:+ QueryEscape kv.2)
       <$> foldl (λ acc kv, insert_sorted kv acc) [] (reverse v))
    "&".

(** One [key=value] setting of a query string, as the loop body of
    [url.ParseQuery] reads it: settings holding a semicolon, empty settings
    and settings that do not unescape are skipped. *)
Definition parseSetting (setting : string) : option (string * string) :=
  if Strings.ContainsByte ";" setting then None
  else if String.eqb setting "" then None
  else
    let '(key, value) := Strings.Cut "=" setting in
    k ← QueryUnescape key;
    v ← QueryUnescape (default "" value);
    Some (k, v).

(** [url.ParseQuery], its error dropped as [URL.Query] does. *)
Definition ParseQuery (query : string) : Values :=
  omap parseSetting (Strings.Split "&" query).

(** [u.Query()] of [url.Parse(rawurl)]: the fragment is cut at the first
    [#], the query starts after the first [?]. *)
Definition Query (rawurl : string) : Values :=
  let '(rest, _) := Strings.Cut "#" rawurl in
  let '(_, rawquery) := Strings.Cut "?" rest in
  ParseQuery (default "" rawquery).

(** The [state] parameter a reader of the URL finds in it. *)
Definition state_read_back (rawurl : string) : string := Get (Query rawurl) "state".

End URL.


(** ** JSON documents and the two decoders of [encoding/json] the code uses *)

Module JSON.

(** A Go [float64], as sign, mantissa and binary exponent. *)
Definition float64 := spec_float.

(** A syntactically valid JSON document. The members of an object are kept in
    the order of the text, duplicates included; a number is the [float64] the
    decoder reads it as. *)
Inductive value :=
| Null
| Bool (b : bool)
| Number (f : float64)
| Str (s : string)
| Array (elems : list value)
| Object (members : list (string * value)).

(** The name [encoding/json] gives a JSON value in an [UnmarshalTypeError]. *)
Definition kind (v : value) : string :=
  match v with
  | Null => "null"
  | Bool _ => "bool"
  | Number _ => "number"
  | Str _ => "string"
  | Array _ => "array"
  | Object _ => "object"
  end.

(** The dynamic type of the [interface{}] a JSON value is decoded to, as a
    failed type assertion prints it. *)
Definition dynamic_type (v : option value) : string :=
  match v with
  | None | Some Null => "nil"
  | Some (Bool _) => "bool"
  | Some (Number _) => "float64"
  | Some (Str _) => "string"
  | Some (Array _) => "[]interface {}"
  | Some (Object _) => "map[string]interface {}"
  end.

End JSON.

(** ** Errors, models and the outcome of a call *)

(** The error values that flow through the code. *)
Inductive error :=
| errorString (msg : string)                    (* [fmt.Errorf], [errors.New] *)
| SyntaxError                                   (* [*json.SyntaxError] *)
| UnmarshalTypeError (Value Type_ : string)     (* [*json.UnmarshalTypeError] *)
| urlError (Op URL Err : string)                (* [*url.Error], from [client.Do] *)
| storageError (msg : string).                  (* from the storage layer *)

#[global] Instance error_eq_dec : EqDecision error.
Proof. solve_decision. Defined.

(** [fmt.Errorf] with a format that has no verb left to expand. *)
Definition Errorf (msg : string) : error := errorString msg.

(** A [time.Time] as nanoseconds since the Unix epoch, a [time.Duration] as
    the [int64] count of nanoseconds it is. *)
Definition Time := Z.
Definition Duration := Z.

Definition wrap_int64 (z : Z) : Z := ((z + 2 ^ 63) mod 2 ^ 64 - 2 ^ 63)%Z.

Definition Second : Duration := 1000000000%Z.

(** [d1 * d2] on [time.Duration]: [int64] multiplication, which wraps. *)
Definition Duration_mul (d1 d2 : Duration) : Duration := wrap_int64 (d1 * d2).

(** [t.Add(d)] *)
Definition Time_Add (t : Time) (d : Duration) : Time := (t + d)%Z.

(** The integer part of a finite [float64]. *)
Definition float64_trunc (f : JSON.float64) : option Z :=
  match f with
  | S754_zero _ => Some 0%Z
  | S754_finite s m e =>
      let mag := Z.shiftl (Z.pos m) e in
      Some (if s then (- mag)%Z else mag)
  | S754_infinity _ | S754_nan => None
  end.

(** [time.Duration(f)]: the conversion of a [float64] to [int64] drops the
    fraction. Where the integer part does not fit (or [f] is not finite) Go
    leaves the result to the implementation; it is the one of amd64 here,
    the least [int64]. *)
Definition Duration_of_float64 (f : JSON.float64) : Duration :=
  match float64_trunc f with
  | Some z => if decide (- 2 ^ 63 <= z < 2 ^ 63)%Z then z else (- 2 ^ 63)%Z
  | None => (- 2 ^ 63)%Z
  end.

Module Models.

(** Modelled from the spec: [models.Token], declared in package [models],
    which is not among the sources. Its fields are the five the provider
    sets and the data model of the design lists. *)
Record Token := {
  AccessToken : string;
  RefreshToken : string;
  TokenType : string;
  Expiry : Time;
  Email : string;
}.

#[global] Instance Token_eq_dec : EqDecision Token.
Proof. solve_decision. Defined.

(** Modelled from the spec: [models.Role], [models.ServiceAccount] and
    [models.RoleBinding], declared in package [models], which is not among
    the sources. A role is the [id] and [name] the query selects; the other
    two have the fields [Bind] reads and writes. *)
Record Role := { Role_ID : string; Role_Name : string }.
Record ServiceAccount := { ServiceAccount_ID : string }.
Record RoleBinding := { RoleID : string; ServiceAccountID : string }.

#[global] Instance Role_eq_dec : EqDecision Role.
Proof. solve_decision. Defined.

End Models.

(** The outcome of a Go call that returns a value and an [error]. *)
Inductive Outcome (A : Type) :=
| Ok (a : A)
| Err (e : error)
| Panic (msg : string).
Arguments Ok {A} a.
Arguments Err {A} e.
Arguments Panic {A} msg.

(** ** The provider's dependencies *)

Module HTTP.

(** [*http.Request]: what [http.NewRequest] and [req.Header.Add] build. *)
Record Request := {
  Method : string;
  URL : string;
  Header : list (string * string);
  Form : string;
}.

(** [*http.Response]. [Body] is what [ioutil.ReadAll(res.Body)] delivers (its
    error is dropped by the code), represented by what the syntax check of
    [json.Unmarshal] makes of the bytes: the document they spell, or [None]
    when they are not valid JSON. *)
Record Response := {
  StatusCode : Z;
  Body : option JSON.value;
}.

(** [http.NewRequest(method, url, body)]. Both callers pass a constant
    method and a constant, well-formed URL, for which it returns no error. *)
Definition NewRequest (method url body : string) : Request :=
  {| Method := method; URL := url; Header := []; Form := body |}.

(** [req.Header.Add(key, value)] *)
Definition Header_Add (req : Request) (key value : string) : Request :=
  {| Method := Method req; URL := URL req;
     Header := Header req ++ [(key, value)]; Form := Form req |}.

End HTTP.

(** A call of a dependency, with what it returned. *)
Inductive Event :=
| client_Do_call (req : HTTP.Request) (res : error + HTTP.Response)
| tokens_Get_call (accessToken : string) (res : option Models.Token * option error)
| tokens_Save_call (t : Models.Token) (res : option error).

(** The dependencies of a [Google] value over a world [W]: its [client], its
    [tokensRepository] (the interface [repositories.Tokens]) and the clock.
    [tokens_Get] returns the pair of Go as it is: a pointer that may be nil
    and an error that may be nil. [tokens_Save] leaves the token it is given
    as it is. *)
Class Deps (W : Type) := {
  client_Do : HTTP.Request → W → (error + HTTP.Response) * W;
  tokens_Get : string → W → (option Models.Token * option error) * W;
  tokens_Save : Models.Token → W → option error * W;
  time_Now : W → Time * W;
}.

(** The state a call runs in: the world and the log of the dependency calls
    made so far, oldest first. *)
Record State (W : Type) := mkState { world : W; log : list Event }.
Arguments mkState {W} world log.
Arguments world {W} s.
Arguments log {W} s.

(** A computation with effects on the dependencies. *)
Definition M (W A : Type) : Type := State W → Outcome A * State W.

Definition ret {W A} (a : A) : M W A := λ s, (Ok a, s).

Definition bind {W A B} (c : M W A) (k : A → M W B) : M W B :=
  λ s, match c s with
       | (Ok a, s') => k a s'
       | (Err e, s') => (Err e, s')
       | (Panic msg, s') => (Panic msg, s')
       end.

(** [return nil, err] *)
Definition fail {W A} (e : error) : M W A := λ s, (Err e, s).

(** [panic(msg)] *)
Definition panic {W A} (msg : string) : M W A := λ s, (Panic msg, s).

Notation "x <- c ;; k" := (bind c (λ x, k))
  (at level 100, c at next level, right associativity, only parsing).

Section Calls.
Context {W : Type} `{Deps W}.

(** [res, err := g.client.Do(req); if err != nil { return nil, err }] *)
Definition Do (req : HTTP.Request) : M W HTTP.Response :=
  λ s, let '(res, w) := client_Do req (world s) in
       let s' := mkState w (log s ++ [client_Do_call req res]) in
       match res with
       | inl err => (Err err, s')
       | inr r => (Ok r, s')
       end.

(** [g.tokensRepository.Get(accessToken)], both results handed on. *)
Definition Get (accessToken : string) : M W (option Models.Token * option error) :=
  λ s, let '(res, w) := tokens_Get accessToken (world s) in
       (Ok res, mkState w (log s ++ [tokens_Get_call accessToken res])).

(** [if err := g.tokensRepository.Save(t); err != nil { return nil, err }] *)
Definition Save (t : Models.Token) : M W unit :=
  λ s, let '(res, w) := tokens_Save t (world s) in
       let s' := mkState w (log s ++ [tokens_Save_call t res]) in
       match res with
       | Some err => (Err err, s')
       | None => (Ok tt, s')
       end.

(** [time.Now()] *)
Definition Now : M W Time :=
  λ s, let '(t, w) := time_Now (world s) in (Ok t, mkState w (log s)).

End Calls.

(** ** [oauth2/google.go] *)

Module OAuth2.

Definition tokenEndpoint : string := "https://www.googleapis.com/oauth2/v4/token".
Definition userEndpoint : string := "https://www.googleapis.com/oauth2/v2/userinfo".

Record GoogleConfig := {
  ClientID : string;
  ClientSecret : string;
  RedirectURL : string;
  HostedDomains : list string;
}.

(** [Google]: its configuration; [tokensRepository] and [client] are the
    [Deps] of the world. *)
Record Google := { config : GoogleConfig }.

Record AuthResult := { AccessToken : string; Email : string }.

Record userInfo := { userInfo_Email : string; HostedDomain : string }.

Definition buildURL (endpoint queryStrings : string) : string :=
  endpoint +:+ "?" +:+ queryStrings.

(** The body of the loop of [mapToQueryStrings] over the entries in the order
    [range] visits them, and the final [strings.Join]. *)
Definition mapToQueryStrings_visit (visited : list (string * string)) : string :=
  Strings.Join ((λ kv, kv.1 +:+ "=" +:+ kv.2) <$> visited) "&".

(** [for k, v := range m]: every entry once, in an order Go does not specify. *)
Definition range_order (m : gmap string string) (visited : list (string * string)) : Prop :=
  visited ≡ₚ map_to_list m.

(** [mapToQueryStrings(m)] may return [s]. *)
Definition mapToQueryStrings (m : gmap string string) (s : string) : Prop :=
  ∃ visited, range_order m visited ∧ s = mapToQueryStrings_visit visited.

Definition scope : string :=
  Strings.Join
    [ URL.QueryEscape "https://www.googleapis.com/auth/userinfo.profile";
      URL.QueryEscape "https://www.googleapis.com/auth/userinfo.email" ] "+".

(** The entries of the map literal of [BuildAuthURL], as written. *)
Definition authParams (g : Google) (state : string) : list (string * string) :=
  [ ("state", state);
    ("redirect_uri", RedirectURL (config g));
    ("client_id", ClientID (config g));
    ("scope", scope);
    ("access_type", "offline");
    ("include_granted_scopes", "true");
    ("response_type", "code");
    ("prompt", "consent") ].

Definition authEndpoint : string := "https://accounts.google.com/o/oauth2/v2/auth".

(** [g.BuildAuthURL(state)] may return [url]. *)
Definition BuildAuthURL (g : Google) (state : string) (url : string) : Prop :=
  ∃ qs, mapToQueryStrings (list_to_map (authParams g state)) qs
        ∧ url = buildURL authEndpoint qs.

Definition buildExchangeCodeForm (g : Google) (code : string) : string :=
  let v : URL.Values := [] in
  let v := URL.Add v "code" code in
  let v := URL.Add v "client_id" (ClientID (config g)) in
  let v := URL.Add v "client_secret" (ClientSecret (config g)) in
  let v := URL.Add v "redirect_uri" (RedirectURL (config g)) in
  let v := URL.Add v "grant_type" "authorization_code" in
  URL.Encode v.

(** [json.Unmarshal(body, &tmap)] with [tmap] an empty
    [map[string]interface{}]: a syntax error for bytes that are not JSON; the
    members of an object are stored one after the other, a later duplicate
    replacing an earlier one; [null] leaves the map as it is; any other
    document is an [UnmarshalTypeError]. *)
Definition Unmarshal_map (body : option JSON.value)
  : error + gmap string JSON.value :=
  match body with
  | None => inl SyntaxError
  | Some (JSON.Object members) =>
      inr (foldl (λ (m : gmap string JSON.value) kv, <[kv.1 := kv.2]> m) ∅ members)
  | Some JSON.Null => inr ∅
  | Some v => inl (UnmarshalTypeError (JSON.kind v) "map[string]interface {}")
  end.

Inductive userInfo_field := field_Email | field_HostedDomain.

(** The field of [userInfo] a JSON key selects: the one whose [json] tag is
    the key, or else the one whose tag equals it up to the case of letters. *)
Definition userInfo_field_of (key : string) : option userInfo_field :=
  if String.eqb key "email" then Some field_Email
  else if String.eqb key "hd" then Some field_HostedDomain
  else if Strings.EqualFold key "email" then Some field_Email
  else if Strings.EqualFold key "hd" then Some field_HostedDomain
  else None.

(** One member of the object, decoded into the struct: a string is stored,
    [null] leaves the field, anything else is recorded as the error of the
    call unless one was recorded before. Members that select no field are
    skipped. *)
Definition userInfo_member (acc : userInfo * option error) (kv : string * JSON.value)
  : userInfo * option error :=
  let '(ui, err) := acc in
  match userInfo_field_of kv.1 with
  | None => acc
  | Some f =>
      match kv.2 with
      | JSON.Str s =>
          match f with
          | field_Email =>
              ({| userInfo_Email := s; HostedDomain := HostedDomain ui |}, err)
          | field_HostedDomain =>
              ({| userInfo_Email := userInfo_Email ui; HostedDomain := s |}, err)
          end
      | JSON.Null => acc
      | v =>
          (ui, match err with
               | Some e => Some e
               | None => Some (UnmarshalTypeError (JSON.kind v) "string")
               end)
      end
  end.

(** [ui := &userInfo{}; err = json.Unmarshal(body, ui)] *)
Definition Unmarshal_userInfo (body : option JSON.value) : error + userInfo :=
  let zero := {| userInfo_Email := ""; HostedDomain := "" |} in
  match body with
  | None => inl SyntaxError
  | Some (JSON.Object members) =>
      match foldl userInfo_member (zero, None) members with
      | (_, Some err) => inl err
      | (ui, None) => inr ui
      end
  | Some JSON.Null => inr zero
  | Some v => inl (UnmarshalTypeError (JSON.kind v) "oauth2.userInfo")
  end.

(** [g.checkHostedDomain(hd)]; a nil slice and an empty one are both [[]]. *)
Definition checkHostedDomain (g : Google) (hd : string) : bool :=
  match HostedDomains (config g) with
  | [] => true
  | allowed => existsb (String.eqb hd) allowed
  end.

(** The request [tokenFromCode] builds before it calls the client. *)
Definition tokenRequest (g : Google) (code : string) : HTTP.Request :=
  let ecf := buildExchangeCodeForm g code in
  let req := HTTP.NewRequest "POST" tokenEndpoint ecf in
  HTTP.Header_Add req "Content-Type" "application/x-www-form-urlencoded".

(** The request [getUserInfo] builds before it calls the client. *)
Definition userRequest (accessToken : string) : HTTP.Request :=
  let req := HTTP.NewRequest "GET" userEndpoint "" in
  HTTP.Header_Add req "Authorization" ("Bearer " +:+ accessToken).

Section Provider.
Context {W : Type} `{Deps W}.

(** [if err != nil { return nil, err }] after a decoder. *)
Definition lift {A} (r : error + A) : M W A :=
  match r with
  | inl err => fail err
  | inr a => ret a
  end.

(** [v.(string)] on a value read from the map: it panics unless the key is
    there with a string. *)
Definition assert_string (v : option JSON.value) : M W string :=
  match v with
  | Some (JSON.Str s) => ret s
  | _ => panic ("interface conversion: interface {} is "
                +:+ JSON.dynamic_type v +:+ ", not string")
  end.

(** [v.(float64)] *)
Definition assert_float64 (v : option JSON.value) : M W JSON.float64 :=
  match v with
  | Some (JSON.Number f) => ret f
  | _ => panic ("interface conversion: interface {} is "
                +:+ JSON.dynamic_type v +:+ ", not float64")
  end.

Definition tokenFromCode (g : Google) (code : string) : M W Models.Token :=
  let req := tokenRequest g code in
  res <- Do req ;;
  let body := HTTP.Body res in
  tmap <- lift (Unmarshal_map body) ;;
  accessToken <- assert_string (tmap !! "access_token") ;;
  refreshToken <- assert_string (tmap !! "refresh_token") ;;
  tokenType <- assert_string (tmap !! "token_type") ;;
  now <- Now ;;
  expiresIn <- assert_float64 (tmap !! "expires_in") ;;
  ret {| Models.AccessToken := accessToken;
         Models.RefreshToken := refreshToken;
         Models.TokenType := tokenType;
         Models.Expiry := Time_Add now (Duration_mul Second (Duration_of_float64 expiresIn));
         Models.Email := "" |}.

Definition getUserInfo (accessToken : string) : M W userInfo :=
  let req := userRequest accessToken in
  res <- Do req ;;
  let body := HTTP.Body res in
  lift (Unmarshal_userInfo body).

(** [t.Email = email] *)
Definition set_Email (t : Models.Token) (email : string) : Models.Token :=
  {| Models.AccessToken := Models.AccessToken t;
     Models.RefreshToken := Models.RefreshToken t;
     Models.TokenType := Models.TokenType t;
     Models.Expiry := Models.Expiry t;
     Models.Email := email |}.

Definition ExchangeCode (g : Google) (code : string) : M W AuthResult :=
  t <- tokenFromCode g code ;;
  userInfo <- getUserInfo (Models.AccessToken t) ;;
  let allowed := checkHostedDomain g (HostedDomain userInfo) in
  if negb allowed then
    fail (Errorf ("email from non-allowed hosted domain " +:+ HostedDomain userInfo))
  else
    let t := set_Email t (userInfo_Email userInfo) in
    _ <- Save t ;;
    ret {| AccessToken := Models.AccessToken t; Email := Models.Email t |}.

Definition Authenticate (g : Google) (accessToken : string) : M W AuthResult :=
  r <- Get accessToken ;;
  let '(t, err) := r in
  match t with
  | None => fail (Errorf "access token not found")
  | Some t =>
      match err with
      | Some err => fail err
      | None =>
          _ <- getUserInfo (Models.AccessToken t) ;;
          ret {| AccessToken := Models.AccessToken t; Email := Models.Email t |}
      end
  end.

End Provider.

End OAuth2.

(** ** Reading an authorization URL back *)

Module Readback.

(** The text [mapToQueryStrings] writes for one entry of the map. *)
Definition written (kv : string * string) : string := kv.1 +:+ "=" +:+ kv.2.

(** The settings a reader of the query string finds in that text. *)
Definition read (kv : string * string) : URL.Values :=
  omap URL.parseSetting (Strings.Split "&" (written kv)).

(** The text of the entry gives the reader no setting under [key]. *)
Definition silent_on (key : string) (kv : string * string) : bool :=
  bool_decide (URL.index (read kv) key = []).

(** The first setting the reader finds in the text of the entry is
    [key=value]. *)
Definition opens_with (key value : string) (kv : string * string) : bool :=
  match read kv with
  | (k, v) :: _ => bool_decide (k = key ∧ v = value)
  | [] => false
  end.

(** The text of the entry does not start a fragment. *)
Definition no_fragment (kv : string * string) : bool :=
  negb (Strings.ContainsByte "#" (written kv)).

(** An entry the reader can meet on the way to the state [value]: it starts
    no fragment, and either says nothing about [state] or says [value]
    first. *)
Definition harmless (value : string) (kv : string * string) : bool :=
  no_fragment kv && (silent_on "state" kv || opens_with "state" value kv).



End Readback.

(** ** [repositories/roles.go] *)

Module Repositories.

(** Modelled from the spec: the database behind [Storage], whose declaration
    is not among the sources. It holds the two tables the query names, rows
    in insertion order; the error the connection answers with, if it is
    broken; and the order in which the server delivers the rows of a result,
    which SQL leaves open without [ORDER BY]. *)
Record Storage := {
  roles_table : list Models.Role;
  role_bindings_table : list Models.RoleBinding;
  broken : option error;
  deliver : list Models.Role → list Models.Role;
}.

(** [SELECT r.id, r.name FROM roles r
     JOIN role_bindings rb ON rb.role_id = r.id
     WHERE rb.service_account_id = ?] : one row for every pair of a role and
    a binding that satisfies both conditions. *)
Definition select_roles (st : Storage) (serviceAccountID : string) : list Models.Role :=
  r ← roles_table st;
  rb ← role_bindings_table st;
  if decide (Models.RoleID rb = Models.Role_ID r
             ∧ Models.ServiceAccountID rb = serviceAccountID)
  then [r] else [].

(** [rs.storage.PG.DB.Query(&roles, ..., serviceAccountID)]: the rows are
    appended to [roles], which starts nil. *)
Definition Query_roles (st : Storage) (serviceAccountID : string)
  : error + list Models.Role :=
  match broken st with
  | Some err => inl err
  | None => inr (deliver st (select_roles st serviceAccountID))
  end.

Definition ForServiceAccountID (st : Storage) (serviceAccountID : string)
  : Outcome (list Models.Role) :=
  match Query_roles st serviceAccountID with
  | inl err => Err err
  | inr roles => Ok roles
  end.

(** The roles bound to a service account, in the words of the design: the
    roles some binding row associates with the account. *)
Definition bound_role (st : Storage) (serviceAccountID : string) (r : Models.Role) : Prop :=
  r ∈ roles_table st
  ∧ ∃ rb, rb ∈ role_bindings_table st
          ∧ Models.RoleID rb = Models.Role_ID r
          ∧ Models.ServiceAccountID rb = serviceAccountID.

(** The binding rows of a service account. *)
Definition bindings_of (st : Storage) (serviceAccountID : string) : list Models.RoleBinding :=
  filter (λ rb, Models.ServiceAccountID rb = serviceAccountID) (role_bindings_table st).

End Repositories.

(** ** A scripted world, to run the provider on *)

Module Sim.

(** Modelled from the spec: the Token Store behind [repositories.Tokens],
    whose implementation is not part of the sources. Records are keyed by
    access token; [Get] answers with the record or with none; [Save] upserts;
    either fails with the error the script injects. The provider's endpoints
    answer each request as the script says, the clock stands still. *)
Record World := {
  server : HTTP.Request → error + HTTP.Response;
  records : gmap string Models.Token;
  Get_fails : option error;
  Save_fails : option error;
  clock : Time;
}.

Definition Get (accessToken : string) (w : World)
  : (option Models.Token * option error) * World :=
  match Get_fails w with
  | Some err => ((None, Some err), w)
  | None => ((records w !! accessToken, None), w)
  end.

Definition Save (t : Models.Token) (w : World) : option error * World :=
  match Save_fails w with
  | Some err => (Some err, w)
  | None =>
      (None, {| server := server w;
                records := <[Models.AccessToken t := t]> (records w);
                Get_fails := Get_fails w;
                Save_fails := Save_fails w;
                clock := clock w |})
  end.

#[global] Instance deps : Deps World := {|
  client_Do req w := (server w req, w);
  tokens_Get := Get;
  tokens_Save := Save;
  time_Now w := (clock w, w);
|}.

(** Google's endpoints, scripted: the token endpoint answers with
    [tokenBody], the identity endpoint with [userBody]. *)
Definition google (tokenBody userBody : option JSON.value) (req : HTTP.Request)
  : error + HTTP.Response :=
  if String.eqb (HTTP.URL req) OAuth2.tokenEndpoint
  then inr {| HTTP.StatusCode := 200%Z; HTTP.Body := tokenBody |}
  else inr {| HTTP.StatusCode := 200%Z; HTTP.Body := userBody |}.

(** The [float64] of a non-negative whole number. *)
Definition float_of_N (n : N) : JSON.float64 :=
  match n with
  | N0 => S754_zero false
  | Npos p => S754_finite false p 0
  end.

Definition tokenJSON (expires_in : N) : JSON.value :=
  JSON.Object [ ("access_token", JSON.Str "AT1");
                ("refresh_token", JSON.Str "RT1");
                ("token_type", JSON.Str "Bearer");
                ("expires_in", JSON.Number (float_of_N expires_in)) ].

Definition userJSON : JSON.value :=
  JSON.Object [ ("email", JSON.Str "a@acme.com"); ("hd", JSON.Str "acme.com") ].

Definition acme : OAuth2.Google :=
  {| OAuth2.config :=
       {| OAuth2.ClientID := "client-1";
          OAuth2.ClientSecret := "secret-1";
          OAuth2.RedirectURL := "https://iam.example.com/sso/done";
          OAuth2.HostedDomains := ["acme.com"] |} |}.

Definition world0 (tokenBody userBody : option JSON.value) : World :=
  {| server := google tokenBody userBody;
     records := ∅;
     Get_fails := None;
     Save_fails := None;
     clock := 1500000000000000000%Z |}.

Definition start (w : World) : State World := mkState w [].

(** Scenario 2 of the design: the token endpoint grants [AT1] for an hour,
    the identity endpoint reports [a@acme.com] of [acme.com]. *)
Definition scenario2 : State World :=
  start (world0 (Some (tokenJSON 3600)) (Some userJSON)).

(** The identity endpoint reports an account of [other.com]. *)
Definition other_domain : State World :=
  start (world0 (Some (tokenJSON 3600))
           (Some (JSON.Object [ ("email", JSON.Str "b@other.com");
                                ("hd", JSON.Str "other.com") ]))).

(** The identity endpoint reports an account without hosted domain. *)
Definition no_hosted_domain : State World :=
  start (world0 (Some (tokenJSON 3600))
           (Some (JSON.Object [ ("email", JSON.Str "c@gmail.com") ]))).

(** The token endpoint refuses the code, with the error document of
    RFC 6749, section 5.2. *)
Definition errorJSON : JSON.value :=
  JSON.Object [ ("error", JSON.Str "invalid_grant");
                ("error_description", JSON.Str "Bad Request") ].

Definition invalid_grant : State World :=
  start {| server := λ req, inr {| HTTP.StatusCode := 400%Z; HTTP.Body := Some errorJSON |};
           records := ∅;
           Get_fails := None;
           Save_fails := None;
           clock := 1500000000000000000%Z |}.

(** The token endpoint grants a token that expires at once. *)
Definition zero_lifetime : State World :=
  start (world0 (Some (tokenJSON 0)) (Some userJSON)).

(** The token that run saves. *)
Definition zero_lifetime_token : Models.Token :=
  {| Models.AccessToken := "AT1"; Models.RefreshToken := "RT1";
     Models.TokenType := "Bearer";
     Models.Expiry := 1500000000000000000%Z;
     Models.Email := "a@acme.com" |}.

(** The repository cannot reach its database. *)
Definition broken_store : State World :=
  start {| server := google (Some (tokenJSON 3600)) (Some userJSON);
           records := ∅;
           Get_fails := Some (storageError "connection refused");
           Save_fails := Some (storageError "connection refused");
           clock := 1500000000000000000%Z |}.

(** A database with two roles and three bindings, whose server delivers
    the rows of a result last first. *)
Definition admin : Models.Role := {| Models.Role_ID := "1"; Models.Role_Name := "admin" |}.
Definition viewer : Models.Role := {| Models.Role_ID := "2"; Models.Role_Name := "viewer" |}.

Definition storage : Repositories.Storage :=
  {| Repositories.roles_table := [admin; viewer];
     Repositories.role_bindings_table :=
       [ {| Models.RoleID := "1"; Models.ServiceAccountID := "sa1" |};
         {| Models.RoleID := "2"; Models.ServiceAccountID := "sa1" |};
         {| Models.RoleID := "1"; Models.ServiceAccountID := "sa2" |} ];
     Repositories.broken := None;
     Repositories.deliver := reverse |}.

(** The same rows, the bindings inserted in the opposite order, on a server
    that delivers rows first to last. *)
Definition storage_reordered : Repositories.Storage :=
  {| Repositories.roles_table := [admin; viewer];
     Repositories.role_bindings_table :=
       reverse (Repositories.role_bindings_table storage);
     Repositories.broken := None;
     Repositories.deliver := id |}.

End Sim.

(** ** [repositories/roles.go]: the two inserts *)

Module Inserts.

(** Modelled from the spec: what the database makes of the two [INSERT]
    statements. The schema of the tables is not among the sources, so the id
    it gives a new role and its verdict on a row (a key or a constraint the
    row violates) are left to it. *)
Record Schema := {
  new_id : Repositories.Storage → string → string;
  refuses_role : Repositories.Storage → string → option error;
  refuses_binding : Repositories.Storage → Models.RoleBinding → option error;
}.

(** [INSERT INTO roles (name) VALUES (?name) RETURNING id]: the new row and
    the table with it, or the error of the connection or of the schema. *)
Definition insert_role (sch : Schema) (st : Repositories.Storage) (name : string)
  : error + (Models.Role * Repositories.Storage) :=
  match Repositories.broken st with
  | Some err => inl err
  | None =>
      match refuses_role sch st name with
      | Some err => inl err
      | None =>
          let row := {| Models.Role_ID := new_id sch st name; Models.Role_Name := name |} in
          inr (row, {| Repositories.roles_table := Repositories.roles_table st ++ [row];
                       Repositories.role_bindings_table := Repositories.role_bindings_table st;
                       Repositories.broken := Repositories.broken st;
                       Repositories.deliver := Repositories.deliver st |})
      end
  end.

(** [INSERT INTO role_bindings (role_id, service_account_id)
     VALUES (?role_id, ?service_account_id)] *)
Definition insert_binding (sch : Schema) (st : Repositories.Storage) (rb : Models.RoleBinding)
  : option error * Repositories.Storage :=
  match Repositories.broken st with
  | Some err => (Some err, st)
  | None =>
      match refuses_binding sch st rb with
      | Some err => (Some err, st)
      | None =>
          (None, {| Repositories.roles_table := Repositories.roles_table st;
                    Repositories.role_bindings_table :=
                      Repositories.role_bindings_table st ++ [rb];
                    Repositories.broken := Repositories.broken st;
                    Repositories.deliver := Repositories.deliver st |})
      end
  end.

(** [rs.Create(r)]: the role as the call leaves it behind the pointer (the
    returned id is scanned into it), the error and the database. *)
Definition Create (sch : Schema) (r : Models.Role) (st : Repositories.Storage)
  : (Models.Role * option error) * Repositories.Storage :=
  match insert_role sch st (Models.Role_Name r) with
  | inl err => ((r, Some err), st)
  | inr (row, st') =>
      (({| Models.Role_ID := Models.Role_ID row; Models.Role_Name := Models.Role_Name r |},
        None), st')
  end.

(** [rs.Bind(r, sa)] *)
Definition Bind (sch : Schema) (r : Models.Role) (sa : Models.ServiceAccount)
    (st : Repositories.Storage) : option error * Repositories.Storage :=
  let rb := {| Models.RoleID := Models.Role_ID r;
               Models.ServiceAccountID := Models.ServiceAccount_ID sa |} in
  insert_binding sch st rb.

(** A schema without constraints that derives the id of a role from its
    name. *)
Definition free : Schema :=
  {| new_id st name := "id-" +:+ name;
     refuses_role st name := None;
     refuses_binding st rb := None |}.

End Inserts.

(** ** The calls of a run, by outcome *)

Module Runs.

Definition is_Str (v : option JSON.value) : bool :=
  match v with Some (JSON.Str _) => true | _ => false end.

Definition is_Number (v : option JSON.value) : bool :=
  match v with Some (JSON.Number _) => true | _ => false end.

(** The decoded answer of the token endpoint has the four members
    [tokenFromCode] asserts, each of the asserted type. *)
Definition well_typed (tmap : gmap string JSON.value) : bool :=
  is_Str (tmap !! "access_token") && is_Str (tmap !! "refresh_token")
  && is_Str (tmap !! "token_type") && is_Number (tmap !! "expires_in").

(** A member of the identity document that the decoder of [userInfo] takes
    without error: it selects no field, or it is a string or [null]. *)
Definition member_decodes (kv : string * JSON.value) : bool :=
  match OAuth2.userInfo_field_of kv.1, kv.2 with
  | None, _ => true
  | Some _, (JSON.Str _ | JSON.Null) => true
  | Some _, _ => false
  end.

(** The calls [Authenticate] makes for [accessToken], with its outcome. *)
Inductive Authenticate_run (accessToken : string)
  : Outcome OAuth2.AuthResult → list Event → Prop :=
| not_found err :
    Authenticate_run accessToken (Err (Errorf "access token not found"))
      [tokens_Get_call accessToken (None, err)]
| lookup_failed t e :
    Authenticate_run accessToken (Err e)
      [tokens_Get_call accessToken (Some t, Some e)]
| probe_failed t e :
    Authenticate_run accessToken (Err e)
      [tokens_Get_call accessToken (Some t, None);
       client_Do_call (OAuth2.userRequest (Models.AccessToken t)) (inl e)]
| probe_undecoded t res e :
    OAuth2.Unmarshal_userInfo (HTTP.Body res) = inl e →
    Authenticate_run accessToken (Err e)
      [tokens_Get_call accessToken (Some t, None);
       client_Do_call (OAuth2.userRequest (Models.AccessToken t)) (inr res)]
| authenticated t res ui :
    OAuth2.Unmarshal_userInfo (HTTP.Body res) = inr ui →
    Authenticate_run accessToken
      (Ok {| OAuth2.AccessToken := Models.AccessToken t;
             OAuth2.Email := Models.Email t |})
      [tokens_Get_call accessToken (Some t, None);
       client_Do_call (OAuth2.userRequest (Models.AccessToken t)) (inr res)].

(** The calls [ExchangeCode] makes for [code], with its outcome. *)
Inductive ExchangeCode_run (g : OAuth2.Google) (code : string)
  : Outcome OAuth2.AuthResult → list Event → Prop :=
| post_failed e :
    ExchangeCode_run g code (Err e)
      [client_Do_call (OAuth2.tokenRequest g code) (inl e)]
| answer_undecoded res e :
    OAuth2.Unmarshal_map (HTTP.Body res) = inl e →
    ExchangeCode_run g code (Err e)
      [client_Do_call (OAuth2.tokenRequest g code) (inr res)]
| answer_ill_typed res tmap msg :
    OAuth2.Unmarshal_map (HTTP.Body res) = inr tmap →
    well_typed tmap = false →
    ExchangeCode_run g code (Panic msg)
      [client_Do_call (OAuth2.tokenRequest g code) (inr res)]
| identity_failed res accessToken e :
    ExchangeCode_run g code (Err e)
      [client_Do_call (OAuth2.tokenRequest g code) (inr res);
       client_Do_call (OAuth2.userRequest accessToken) (inl e)]
| identity_undecoded res accessToken userRes e :
    OAuth2.Unmarshal_userInfo (HTTP.Body userRes) = inl e →
    ExchangeCode_run g code (Err e)
      [client_Do_call (OAuth2.tokenRequest g code) (inr res);
       client_Do_call (OAuth2.userRequest accessToken) (inr userRes)]
| domain_rejected res accessToken userRes ui :
    OAuth2.Unmarshal_userInfo (HTTP.Body userRes) = inr ui →
    OAuth2.checkHostedDomain g (OAuth2.HostedDomain ui) = false →
    ExchangeCode_run g code
      (Err (Errorf ("email from non-allowed hosted domain " +:+ OAuth2.HostedDomain ui)))
      [client_Do_call (OAuth2.tokenRequest g code) (inr res);
       client_Do_call (OAuth2.userRequest accessToken) (inr userRes)]
| save_failed res userRes ui t e :
    OAuth2.Unmarshal_userInfo (HTTP.Body userRes) = inr ui →
    OAuth2.checkHostedDomain g (OAuth2.HostedDomain ui) = true →
    Models.Email t = OAuth2.userInfo_Email ui →
    ExchangeCode_run g code (Err e)
      [client_Do_call (OAuth2.tokenRequest g code) (inr res);
       client_Do_call (OAuth2.userRequest (Models.AccessToken t)) (inr userRes);
       tokens_Save_call t (Some e)]
| exchanged res userRes ui t :
    OAuth2.Unmarshal_userInfo (HTTP.Body userRes) = inr ui →
    OAuth2.checkHostedDomain g (OAuth2.HostedDomain ui) = true →
    Models.Email t = OAuth2.userInfo_Email ui →
    ExchangeCode_run g code
      (Ok {| OAuth2.AccessToken := Models.AccessToken t;
             OAuth2.Email := OAuth2.userInfo_Email ui |})
      [client_Do_call (OAuth2.tokenRequest g code) (inr res);
       client_Do_call (OAuth2.userRequest (Models.AccessToken t)) (inr userRes);
       tokens_Save_call t None].

End Runs.

(** ** More scripted worlds *)

Module Sim2.

(** The error document Google's identity endpoint sends with status 401. *)
Definition unauthorizedJSON : JSON.value :=
  JSON.Object
    [ ("error", JSON.Object [ ("code", JSON.Number (Sim.float_of_N 401));
                              ("message", JSON.Str "Invalid Credentials");
                              ("status", JSON.Str "UNAUTHENTICATED") ]) ].

(** A store that holds [AT1], and a provider that has revoked it. *)
Definition revoked : State Sim.World :=
  Sim.start
    {| Sim.server := λ req, inr {| HTTP.StatusCode := 401%Z;
                                   HTTP.Body := Some unauthorizedJSON |};
       Sim.records :=
         {[ "AT1" := {| Models.AccessToken := "AT1"; Models.RefreshToken := "RT1";
                        Models.TokenType := "Bearer";
                        Models.Expiry := 1400000000000000000%Z;
                        Models.Email := "a@acme.com" |} ]};
       Sim.Get_fails := None;
       Sim.Save_fails := None;
       Sim.clock := 1500000000000000000%Z |}.

(** The token endpoint grants a token whose lifetime is minus one minute. *)
Definition negative_lifetime : State Sim.World :=
  Sim.start
    (Sim.world0
       (Some (JSON.Object [ ("access_token", JSON.Str "AT1");
                            ("refresh_token", JSON.Str "RT1");
                            ("token_type", JSON.Str "Bearer");
                            ("expires_in", JSON.Number (S754_finite true 60 0)) ]))
       (Some Sim.userJSON)).

(** The token endpoint grants a token without refresh token. *)
Definition no_refresh_token : State Sim.World :=
  Sim.start
    (Sim.world0
       (Some (JSON.Object [ ("access_token", JSON.Str "AT1");
                            ("token_type", JSON.Str "Bearer");
                            ("expires_in", JSON.Number (Sim.float_of_N 3600)) ]))
       (Some Sim.userJSON)).

(** A provider whose redirect URL carries a query of its own. *)
Definition with_query : OAuth2.Google :=
  {| OAuth2.config :=
       {| OAuth2.ClientID := "client-1";
          OAuth2.ClientSecret := "secret-1";
          OAuth2.RedirectURL := "https://iam.example.com/done?next=%2Fhome";
          OAuth2.HostedDomains := [] |} |}.

(** The token endpoint grants [AT1]; the identity endpoint answers 401 with
    its error document. *)
Definition identity_refused : State Sim.World :=
  Sim.start
    {| Sim.server := λ req,
         if String.eqb (HTTP.URL req) OAuth2.tokenEndpoint
         then inr {| HTTP.StatusCode := 200%Z; HTTP.Body := Some (Sim.tokenJSON 3600) |}
         else inr {| HTTP.StatusCode := 401%Z; HTTP.Body := Some unauthorizedJSON |};
       Sim.records := ∅;
       Sim.Get_fails := None;
       Sim.Save_fails := None;
       Sim.clock := 1500000000000000000%Z |}.

End Sim2.

(** * Properties *)

(** ** The string functions on small inputs *)

Example QueryEscape_scope :
  URL.QueryEscape "https://www.googleapis.com/auth/userinfo.email"
  = "https%3A%2F%2Fwww.googleapis.com%2Fauth%2Fuserinfo.email".
Proof. reflexivity. Qed.

Example QueryUnescape_examples :
  URL.QueryUnescape "a%26b+c" = Some "a&b c" ∧ URL.QueryUnescape "100%" = None.
Proof. split; reflexivity. Qed.

Example Query_example :
  URL.Query "https://h/p?a=1&b=x%20y+z&&c&d;e=2&f=%zz#frag=1"
  = [("a", "1"); ("b", "x y z"); ("c", "")].
Proof. reflexivity. Qed.

Example Encode_sorted :
  URL.Encode (URL.Add (URL.Add (URL.Add [] "code" "4/x y") "client_id" "id") "code" "b")
  = "client_id=id&code=4%2Fx+y&code=b".
Proof. reflexivity. Qed.

Example buildExchangeCodeForm_example :
  OAuth2.buildExchangeCodeForm Sim.acme "4/abc"
  = "client_id=client-1&client_secret=secret-1&code=4%2Fabc"
    +:+ "&grant_type=authorization_code"
    +:+ "&redirect_uri=https%3A%2F%2Fiam.example.com%2Fsso%2Fdone".
Proof. vm_compute. reflexivity. Qed.

Example Unmarshal_userInfo_examples :
  OAuth2.Unmarshal_userInfo
    (Some (JSON.Object [("Email", JSON.Str "a@acme.com"); ("HD", JSON.Str "acme.com");
                        ("id", JSON.Number (Sim.float_of_N 7))]))
  = inr {| OAuth2.userInfo_Email := "a@acme.com"; OAuth2.HostedDomain := "acme.com" |}
  ∧ OAuth2.Unmarshal_userInfo
      (Some (JSON.Object [("email", JSON.Number (Sim.float_of_N 7))]))
    = inl (UnmarshalTypeError "number" "string")
  ∧ OAuth2.Unmarshal_userInfo None = inl SyntaxError.
Proof. split_and!; reflexivity. Qed.

Example Duration_of_float64_examples :
  Duration_of_float64 (Sim.float_of_N 3600) = 3600%Z
  ∧ Duration_of_float64 (S754_finite true 7 (-1)) = (-3)%Z
  ∧ Duration_of_float64 (S754_finite false 1 64) = (- 2 ^ 63)%Z.
Proof. split_and!; reflexivity. Qed.

(** ** Running a computation: inversion of each step *)

Section Steps.
Context {W : Type} `{Deps W}.

Lemma bind_Ok_inv {A B} (c : M W A) (k : A → M W B) s b s' :
  bind c k s = (Ok b, s') →
  ∃ a s1, c s = (Ok a, s1) ∧ k a s1 = (Ok b, s').
Proof.
  unfold bind. destruct (c s) as [[a|e|msg] s1]; intros Hk; try discriminate.
  by exists a, s1.
Qed.

Lemma bind_Ok {A B} (c : M W A) (k : A → M W B) s a s1 :
  c s = (Ok a, s1) → bind c k s = k a s1.
Proof. unfold bind. by intros ->. Qed.

Lemma bind_Err {A B} (c : M W A) (k : A → M W B) s e s1 :
  c s = (Err e, s1) → bind c k s = (Err e, s1).
Proof. unfold bind. by intros ->. Qed.

Lemma bind_Panic {A B} (c : M W A) (k : A → M W B) s msg s1 :
  c s = (Panic msg, s1) → bind c k s = (Panic msg, s1).
Proof. unfold bind. by intros ->. Qed.

Lemma Do_Ok_inv req s res s' :
  Do req s = (Ok res, s') →
  ∃ w, client_Do req (world s) = (inr res, w)
       ∧ s' = mkState w (log s ++ [client_Do_call req (inr res)]).
Proof.
  unfold Do. destruct (client_Do req (world s)) as [[e|r] w]; intros Hd;
    inversion Hd; subst. by exists w.
Qed.

Lemma Do_Err req s e w :
  client_Do req (world s) = (inl e, w) →
  Do req s = (Err e, mkState w (log s ++ [client_Do_call req (inl e)])).
Proof. unfold Do. by intros ->. Qed.

Lemma Do_Ok req s res w :
  client_Do req (world s) = (inr res, w) →
  Do req s = (Ok res, mkState w (log s ++ [client_Do_call req (inr res)])).
Proof. unfold Do. by intros ->. Qed.

Lemma Save_Ok_inv t s u s' :
  Save t s = (Ok u, s') →
  ∃ w, tokens_Save t (world s) = (None, w)
       ∧ s' = mkState w (log s ++ [tokens_Save_call t None]).
Proof.
  unfold Save. destruct (tokens_Save t (world s)) as [[e|] w]; intros Hs;
    inversion Hs; subst. by exists w.
Qed.

Lemma Save_Err t s e w :
  tokens_Save t (world s) = (Some e, w) →
  Save t s = (Err e, mkState w (log s ++ [tokens_Save_call t (Some e)])).
Proof. unfold Save. by intros ->. Qed.

Lemma Now_inv s t s' :
  Now s = (Ok t, s') → ∃ w, time_Now (world s) = (t, w) ∧ s' = mkState w (log s).
Proof.
  unfold Now. destruct (time_Now (world s)) as [t0 w]. intros Hn.
  inversion Hn; subst. by exists w.
Qed.

Lemma lift_Ok_inv {A} (r : error + A) (s : State W) a s' :
  OAuth2.lift r s = (Ok a, s') → r = inr a ∧ s' = s.
Proof. destruct r; cbn; intros Hr; inversion Hr; by subst. Qed.

Lemma assert_string_Ok_inv v (s : State W) x s' :
  OAuth2.assert_string v s = (Ok x, s') → v = Some (JSON.Str x) ∧ s' = s.
Proof.
  destruct v as [[]|]; cbn; intros Hv; inversion Hv; by subst.
Qed.

Lemma assert_float64_Ok_inv v (s : State W) x s' :
  OAuth2.assert_float64 v s = (Ok x, s') → v = Some (JSON.Number x) ∧ s' = s.
Proof.
  destruct v as [[]|]; cbn; intros Hv; inversion Hv; by subst.
Qed.

(** What a successful [tokenFromCode] did, step by step. *)
Lemma tokenFromCode_Ok_inv g code s t s' :
  OAuth2.tokenFromCode g code s = (Ok t, s') →
  ∃ res w1 tmap expiresIn now w2,
    client_Do (OAuth2.tokenRequest g code) (world s) = (inr res, w1)
    ∧ OAuth2.Unmarshal_map (HTTP.Body res) = inr tmap
    ∧ tmap !! "access_token" = Some (JSON.Str (Models.AccessToken t))
    ∧ tmap !! "refresh_token" = Some (JSON.Str (Models.RefreshToken t))
    ∧ tmap !! "token_type" = Some (JSON.Str (Models.TokenType t))
    ∧ tmap !! "expires_in" = Some (JSON.Number expiresIn)
    ∧ time_Now w1 = (now, w2)
    ∧ Models.Expiry t
      = Time_Add now (Duration_mul Second (Duration_of_float64 expiresIn))
    ∧ Models.Email t = ""
    ∧ s' = mkState w2 (log s ++ [client_Do_call (OAuth2.tokenRequest g code) (inr res)]).
Proof.
  unfold OAuth2.tokenFromCode. intros Hrun.
  apply bind_Ok_inv in Hrun as (res & s1 & Hdo & Hrun).
  apply Do_Ok_inv in Hdo as (w1 & Hdo & ->).
  apply bind_Ok_inv in Hrun as (tmap & s2 & Hmap & Hrun).
  apply lift_Ok_inv in Hmap as [Hmap ->].
  apply bind_Ok_inv in Hrun as (at_ & s3 & Hat & Hrun).
  apply assert_string_Ok_inv in Hat as [Hat ->].
  apply bind_Ok_inv in Hrun as (rt & s4 & Hrt & Hrun).
  apply assert_string_Ok_inv in Hrt as [Hrt ->].
  apply bind_Ok_inv in Hrun as (tt_ & s5 & Htt & Hrun).
  apply assert_string_Ok_inv in Htt as [Htt ->].
  apply bind_Ok_inv in Hrun as (now & s6 & Hnow & Hrun).
  apply Now_inv in Hnow as (w2 & Hnow & ->).
  apply bind_Ok_inv in Hrun as (f & s7 & Hf & Hrun).
  apply assert_float64_Ok_inv in Hf as [Hf ->].
  inversion Hrun; subst; clear Hrun. cbn in *.
  by exists res, w1, tmap, f, now, w2.
Qed.

(** What a successful [getUserInfo] did. *)
Lemma getUserInfo_Ok_inv accessToken s ui s' :
  OAuth2.getUserInfo accessToken s = (Ok ui, s') →
  ∃ res w1,
    client_Do (OAuth2.userRequest accessToken) (world s) = (inr res, w1)
    ∧ OAuth2.Unmarshal_userInfo (HTTP.Body res) = inr ui
    ∧ s' = mkState w1 (log s ++ [client_Do_call (OAuth2.userRequest accessToken) (inr res)]).
Proof.
  unfold OAuth2.getUserInfo. intros Hrun.
  apply bind_Ok_inv in Hrun as (res & s1 & Hdo & Hrun).
  apply Do_Ok_inv in Hdo as (w1 & Hdo & ->).
  apply lift_Ok_inv in Hrun as [Hui ->].
  by exists res, w1.
Qed.

End Steps.

(** ** The code exchange *)

Example scenario2_result :
  (OAuth2.ExchangeCode Sim.acme "4/abc" Sim.scenario2).1
  = Ok {| OAuth2.AccessToken := "AT1"; OAuth2.Email := "a@acme.com" |}.
Proof. vm_compute. reflexivity. Qed.

Example scenario2_stored :
  map_to_list (Sim.records (world (OAuth2.ExchangeCode Sim.acme "4/abc" Sim.scenario2).2))
  = [("AT1", {| Models.AccessToken := "AT1"; Models.RefreshToken := "RT1";
                Models.TokenType := "Bearer";
                Models.Expiry := (1500000000000000000 + 3600 * 1000000000)%Z;
                Models.Email := "a@acme.com" |})].
Proof. vm_compute. reflexivity. Qed.

(** C1. Whenever [ExchangeCode] succeeds, the calls it made are, in this
    order: the POST to the token endpoint, the GET to the identity endpoint
    and exactly one [Save]. The token saved carries the [access_token] of the
    token endpoint's answer and the email of the identity endpoint's answer,
    and the [AuthResult] returned is built from those two values. *)
Theorem ExchangeCode_saves_one_token {W} `{Deps W} g code (s : State W) auth s' :
  OAuth2.ExchangeCode g code s = (Ok auth, s') →
  ∃ tokenRes userRes tmap ui t,
    log s' = log s ++
      [ client_Do_call (OAuth2.tokenRequest g code) (inr tokenRes);
        client_Do_call (OAuth2.userRequest (Models.AccessToken t)) (inr userRes);
        tokens_Save_call t None ]
    ∧ OAuth2.Unmarshal_map (HTTP.Body tokenRes) = inr tmap
    ∧ tmap !! "access_token" = Some (JSON.Str (Models.AccessToken t))
    ∧ OAuth2.Unmarshal_userInfo (HTTP.Body userRes) = inr ui
    ∧ Models.Email t = OAuth2.userInfo_Email ui
    ∧ auth = {| OAuth2.AccessToken := Models.AccessToken t;
                OAuth2.Email := OAuth2.userInfo_Email ui |}.
Proof.
  unfold OAuth2.ExchangeCode. intros Hrun.
  apply bind_Ok_inv in Hrun as (t & s1 & Htok & Hrun).
  apply bind_Ok_inv in Hrun as (ui & s2 & Hui & Hrun).
  destruct (OAuth2.checkHostedDomain g (OAuth2.HostedDomain ui)); cbn in Hrun;
    [|discriminate].
  apply bind_Ok_inv in Hrun as (u & s3 & Hsave & Hrun).
  inversion Hrun; subst; clear Hrun.
  apply tokenFromCode_Ok_inv in Htok
    as (res1 & w1 & tmap & f & now & w2 & _ & Hmap & Hat & _ & _ & _ & _ & _ & _ & ->).
  apply getUserInfo_Ok_inv in Hui as (res2 & w3 & _ & Hdec & ->).
  apply Save_Ok_inv in Hsave as (w4 & _ & ->).
  exists res1, res2, tmap, ui, (OAuth2.set_Email t (OAuth2.userInfo_Email ui)).
  cbn. rewrite <- !app_assoc. done.
Qed.

Lemma ExchangeCode_saves_one_token_witness :
  ∃ s', OAuth2.ExchangeCode Sim.acme "4/abc" Sim.scenario2
        = (Ok {| OAuth2.AccessToken := "AT1"; OAuth2.Email := "a@acme.com" |}, s')
  ∧ ∃ tokenRes userRes tmap ui t,
    log s' = log Sim.scenario2 ++
      [ client_Do_call (OAuth2.tokenRequest Sim.acme "4/abc") (inr tokenRes);
        client_Do_call (OAuth2.userRequest (Models.AccessToken t)) (inr userRes);
        tokens_Save_call t None ]
    ∧ OAuth2.Unmarshal_map (HTTP.Body tokenRes) = inr tmap
    ∧ tmap !! "access_token" = Some (JSON.Str (Models.AccessToken t))
    ∧ OAuth2.Unmarshal_userInfo (HTTP.Body userRes) = inr ui
    ∧ Models.Email t = OAuth2.userInfo_Email ui
    ∧ {| OAuth2.AccessToken := "AT1"; OAuth2.Email := "a@acme.com" |}
      = {| OAuth2.AccessToken := Models.AccessToken t;
           OAuth2.Email := OAuth2.userInfo_Email ui |}.
Proof.
  exists (OAuth2.ExchangeCode Sim.acme "4/abc" Sim.scenario2).2.
  assert (Hrun : OAuth2.ExchangeCode Sim.acme "4/abc" Sim.scenario2
                 = (Ok {| OAuth2.AccessToken := "AT1"; OAuth2.Email := "a@acme.com" |},
                    (OAuth2.ExchangeCode Sim.acme "4/abc" Sim.scenario2).2))
    by (vm_compute; reflexivity).
  split; [exact Hrun|].
  exact (ExchangeCode_saves_one_token Sim.acme "4/abc" Sim.scenario2 _ _ Hrun).
Defined.

(** ** Failures of the code exchange *)

Section ExchangeCodeFailures.
Context {W : Type} `{Deps W}.
Variables (g : OAuth2.Google) (code : string) (s : State W).

(** The POST to the token endpoint fails: nothing else is called, the error
    of the client is the error returned. *)
Lemma ExchangeCode_POST_fails e w :
  client_Do (OAuth2.tokenRequest g code) (world s) = (inl e, w) →
  OAuth2.ExchangeCode g code s
  = (Err e, mkState w (log s ++ [client_Do_call (OAuth2.tokenRequest g code) (inl e)])).
Proof.
  intros Hdo. unfold OAuth2.ExchangeCode, OAuth2.tokenFromCode.
  erewrite bind_Err; [done|]. erewrite bind_Err; [done|]. by apply Do_Err.
Qed.

(** The answer of the token endpoint does not decode: nothing else is
    called, the error of the decoder is the error returned. *)
Lemma ExchangeCode_decode_fails res e w :
  client_Do (OAuth2.tokenRequest g code) (world s) = (inr res, w) →
  OAuth2.Unmarshal_map (HTTP.Body res) = inl e →
  OAuth2.ExchangeCode g code s
  = (Err e, mkState w (log s ++ [client_Do_call (OAuth2.tokenRequest g code) (inr res)])).
Proof.
  intros Hdo Hdec. unfold OAuth2.ExchangeCode, OAuth2.tokenFromCode.
  erewrite bind_Err; [done|]. erewrite bind_Ok; [|by apply Do_Ok].
  erewrite bind_Err; [done|]. by rewrite Hdec.
Qed.

(** The answer of the token endpoint decodes to a map without
    [access_token]: the call panics. *)
Lemma ExchangeCode_panics res tmap w :
  client_Do (OAuth2.tokenRequest g code) (world s) = (inr res, w) →
  OAuth2.Unmarshal_map (HTTP.Body res) = inr tmap →
  tmap !! "access_token" = None →
  OAuth2.ExchangeCode g code s
  = (Panic "interface conversion: interface {} is nil, not string",
     mkState w (log s ++ [client_Do_call (OAuth2.tokenRequest g code) (inr res)])).
Proof.
  intros Hdo Hdec Hkey. unfold OAuth2.ExchangeCode, OAuth2.tokenFromCode.
  erewrite bind_Panic; [done|]. erewrite bind_Ok; [|by apply Do_Ok].
  erewrite bind_Ok; [|by rewrite Hdec]. erewrite bind_Panic; [done|].
  by rewrite Hkey.
Qed.

(** The GET to the identity endpoint fails, or its answer does not decode:
    [Save] is not called, the error is returned as it is. *)
Lemma ExchangeCode_identity_fails t s1 e s2 :
  OAuth2.tokenFromCode g code s = (Ok t, s1) →
  OAuth2.getUserInfo (Models.AccessToken t) s1 = (Err e, s2) →
  OAuth2.ExchangeCode g code s = (Err e, s2).
Proof.
  intros Htok Hui. unfold OAuth2.ExchangeCode.
  erewrite bind_Ok; [|done]. by erewrite bind_Err.
Qed.

(** The hosted domain is not allowed: [Save] is not called, the error names
    the domain. *)
Lemma ExchangeCode_domain_rejected t s1 ui s2 :
  OAuth2.tokenFromCode g code s = (Ok t, s1) →
  OAuth2.getUserInfo (Models.AccessToken t) s1 = (Ok ui, s2) →
  OAuth2.checkHostedDomain g (OAuth2.HostedDomain ui) = false →
  OAuth2.ExchangeCode g code s
  = (Err (Errorf ("email from non-allowed hosted domain " +:+ OAuth2.HostedDomain ui)), s2).
Proof.
  intros Htok Hui Hchk. unfold OAuth2.ExchangeCode.
  erewrite bind_Ok; [|done]. erewrite bind_Ok; [|done]. by rewrite Hchk.
Qed.

(** [Save] fails: its error is returned as it is. *)
Lemma ExchangeCode_Save_fails t s1 ui s2 e w :
  OAuth2.tokenFromCode g code s = (Ok t, s1) →
  OAuth2.getUserInfo (Models.AccessToken t) s1 = (Ok ui, s2) →
  OAuth2.checkHostedDomain g (OAuth2.HostedDomain ui) = true →
  tokens_Save (OAuth2.set_Email t (OAuth2.userInfo_Email ui)) (world s2) = (Some e, w) →
  OAuth2.ExchangeCode g code s
  = (Err e, mkState w (log s2 ++
       [tokens_Save_call (OAuth2.set_Email t (OAuth2.userInfo_Email ui)) (Some e)])).
Proof.
  intros Htok Hui Hchk Hsave. unfold OAuth2.ExchangeCode.
  erewrite bind_Ok; [|done]. erewrite bind_Ok; [|done]. rewrite Hchk. cbn.
  erewrite bind_Err; [done|]. by apply Save_Err.
Qed.

(** A failing [getUserInfo] made one call, the GET, and returns the error of
    the client or of the decoder. *)
Lemma getUserInfo_Err_inv accessToken (s0 : State W) e s1 :
  OAuth2.getUserInfo accessToken s0 = (Err e, s1) →
  ∃ res w, client_Do (OAuth2.userRequest accessToken) (world s0) = (res, w)
    ∧ s1 = mkState w (log s0 ++ [client_Do_call (OAuth2.userRequest accessToken) res])
    ∧ (res = inl e
       ∨ ∃ r, res = inr r ∧ OAuth2.Unmarshal_userInfo (HTTP.Body r) = inl e).
Proof.
  unfold OAuth2.getUserInfo, bind, Do.
  destruct (client_Do _ (world s0)) as [[e0|r] w] eqn:Hdo; intros Hrun.
  - inversion Hrun; subst. exists (inl e), w. split_and!; [done..|by left].
  - destruct (OAuth2.Unmarshal_userInfo (HTTP.Body r)) as [e0|ui] eqn:Hdec;
      cbn in Hrun; inversion Hrun; subst.
    exists (inr r), w. split_and!; [done..|right; by exists r].
Qed.

End ExchangeCodeFailures.

(** ** Authenticate *)

Section AuthenticateSteps.
Context {W : Type} `{Deps W}.
Variables (g : OAuth2.Google) (accessToken : string) (s : State W).

(** The repository hands back a token and an error: the error is returned. *)
Lemma Authenticate_Get_error_with_token t e w :
  tokens_Get accessToken (world s) = ((Some t, Some e), w) →
  OAuth2.Authenticate g accessToken s
  = (Err e, mkState w (log s ++ [tokens_Get_call accessToken (Some t, Some e)])).
Proof. intros Hget. unfold OAuth2.Authenticate, bind, Get. by rewrite Hget. Qed.

(** The repository hands back no token and an error: the error returned is
    not that one. *)
Lemma Authenticate_Get_error_without_token e w :
  tokens_Get accessToken (world s) = ((None, Some e), w) →
  OAuth2.Authenticate g accessToken s
  = (Err (Errorf "access token not found"),
     mkState w (log s ++ [tokens_Get_call accessToken (None, Some e)])).
Proof. intros Hget. unfold OAuth2.Authenticate, bind, Get. by rewrite Hget. Qed.

(** The identity endpoint rejects the stored token: the error is returned
    as it is. *)
Lemma Authenticate_identity_fails t w e s2 :
  tokens_Get accessToken (world s) = ((Some t, None), w) →
  OAuth2.getUserInfo (Models.AccessToken t)
    (mkState w (log s ++ [tokens_Get_call accessToken (Some t, None)])) = (Err e, s2) →
  OAuth2.Authenticate g accessToken s = (Err e, s2).
Proof.
  intros Hget Hui. unfold OAuth2.Authenticate.
  erewrite bind_Ok; [|unfold Get; by rewrite Hget].
  cbv beta iota. by erewrite bind_Err.
Qed.

(** The stored token is still accepted: the result carries the stored email. *)
Lemma Authenticate_Ok t w ui s2 :
  tokens_Get accessToken (world s) = ((Some t, None), w) →
  OAuth2.getUserInfo (Models.AccessToken t)
    (mkState w (log s ++ [tokens_Get_call accessToken (Some t, None)])) = (Ok ui, s2) →
  OAuth2.Authenticate g accessToken s
  = (Ok {| OAuth2.AccessToken := Models.AccessToken t;
           OAuth2.Email := Models.Email t |}, s2).
Proof.
  intros Hget Hui. unfold OAuth2.Authenticate.
  erewrite bind_Ok; [|unfold Get; by rewrite Hget].
  cbv beta iota. by erewrite bind_Ok.
Qed.

End AuthenticateSteps.

(** C5. When the repository has no token under the access token, whether
    its lookup reports an error or not, [Authenticate] returns the error
    [access token not found], and the lookup is the only call it made: the
    identity endpoint is not called. *)
Theorem Authenticate_absent_token {W} `{Deps W} g accessToken (s : State W) err w :
  tokens_Get accessToken (world s) = ((None, err), w) →
  OAuth2.Authenticate g accessToken s
  = (Err (Errorf "access token not found"),
     mkState w (log s ++ [tokens_Get_call accessToken (None, err)])).
Proof. intros Hget. unfold OAuth2.Authenticate, bind, Get. by rewrite Hget. Qed.

Lemma Authenticate_absent_token_witness :
  Sim.records (world Sim.scenario2) !! "unknown-token" = None
  ∧ OAuth2.Authenticate Sim.acme "unknown-token" Sim.scenario2
    = (Err (Errorf "access token not found"),
       mkState (world Sim.scenario2) [tokens_Get_call "unknown-token" (None, None)]).
Proof.
  split; [reflexivity|].
  apply (Authenticate_absent_token Sim.acme "unknown-token" Sim.scenario2 None
           (world Sim.scenario2)).
  reflexivity.
Defined.

(** The same on the scripted store: a token that is not among the records is
    not found, whether the lookup itself fails or not. *)
Lemma Authenticate_absent_record g accessToken (w : Sim.World) calls :
  Sim.records w !! accessToken = None →
  ∃ err,
    OAuth2.Authenticate g accessToken (mkState w calls)
    = (Err (Errorf "access token not found"),
       mkState w (calls ++ [tokens_Get_call accessToken (None, err)])).
Proof.
  intros Habsent. unfold OAuth2.Authenticate, bind, Get. cbn. unfold Sim.Get.
  destruct (Sim.Get_fails w) as [e|]; [by exists (Some e)|].
  rewrite Habsent. by exists None.
Qed.

(** C3, at the input where it fails. The repository answers [Get] with no
    token and the error [connection refused]; [Authenticate] returns
    [access token not found] in its place. *)
Theorem Authenticate_replaces_the_error_of_Get :
  OAuth2.Authenticate Sim.acme "AT1" Sim.broken_store
  = (Err (Errorf "access token not found"),
     mkState (world Sim.broken_store)
       [tokens_Get_call "AT1" (None, Some (storageError "connection refused"))])
  ∧ Errorf "access token not found" ≠ storageError "connection refused".
Proof. split; [reflexivity|discriminate]. Qed.

(** C4, at the input where it fails. The token endpoint answers with the
    error document of OAuth2, which is valid JSON without [access_token]:
    [ExchangeCode] panics in the type assertion, after the POST and before
    any other call. *)
Theorem ExchangeCode_panics_on_error_document :
  OAuth2.ExchangeCode Sim.acme "4/abc" Sim.invalid_grant
  = (Panic "interface conversion: interface {} is nil, not string",
     mkState (world Sim.invalid_grant)
       [client_Do_call (OAuth2.tokenRequest Sim.acme "4/abc")
          (inr {| HTTP.StatusCode := 400%Z; HTTP.Body := Some Sim.errorJSON |})]).
Proof. vm_compute. reflexivity. Qed.

(** ** The hosted-domain policy *)

Lemma checkHostedDomain_spec g hd :
  OAuth2.checkHostedDomain g hd = true
  ↔ OAuth2.HostedDomains (OAuth2.config g) = []
    ∨ hd ∈ OAuth2.HostedDomains (OAuth2.config g).
Proof.
  unfold OAuth2.checkHostedDomain.
  destruct (OAuth2.HostedDomains (OAuth2.config g)) as [|a l] eqn:Hl.
  - naive_solver.
  - rewrite existsb_exists. split.
    + intros (x & Hin & Heq). right. apply String.eqb_eq in Heq. subst x.
      by apply list_elem_of_In.
    + intros [?|Hin]; [done|]. exists hd. split; [by apply list_elem_of_In|].
      apply String.eqb_refl.
Qed.

Example policy_is_case_sensitive :
  OAuth2.checkHostedDomain Sim.acme "ACME.com" = false
  ∧ OAuth2.checkHostedDomain Sim.acme "acme.com" = true.
Proof. split; reflexivity. Qed.

(** C2. With an empty allow-list every hosted domain passes; with a
    non-empty one a hosted domain passes exactly when it is one of the
    entries, byte for byte; and when the domain of the identity does not
    pass, [ExchangeCode] fails with the error that names it. *)
Theorem hosted_domain_policy {W} `{Deps W} g hd :
  (OAuth2.HostedDomains (OAuth2.config g) = [] →
   OAuth2.checkHostedDomain g hd = true)
  ∧ (OAuth2.HostedDomains (OAuth2.config g) ≠ [] →
     (OAuth2.checkHostedDomain g hd = true
      ↔ hd ∈ OAuth2.HostedDomains (OAuth2.config g)))
  ∧ (∀ code (s : State W) t s1 ui s2,
       OAuth2.tokenFromCode g code s = (Ok t, s1) →
       OAuth2.getUserInfo (Models.AccessToken t) s1 = (Ok ui, s2) →
       OAuth2.HostedDomain ui = hd →
       OAuth2.checkHostedDomain g hd = false →
       OAuth2.ExchangeCode g code s
       = (Err (Errorf ("email from non-allowed hosted domain " +:+ hd)), s2)).
Proof.
  split_and!.
  - intros Hnil. apply checkHostedDomain_spec. by left.
  - intros Hne. rewrite checkHostedDomain_spec. split; [by intros [?|?]|by right].
  - intros code s t s1 ui s2 Htok Hui <- Hchk.
    by eapply ExchangeCode_domain_rejected.
Qed.

Lemma hosted_domain_policy_witness :
  OAuth2.checkHostedDomain {| OAuth2.config :=
      {| OAuth2.ClientID := "client-1"; OAuth2.ClientSecret := "secret-1";
         OAuth2.RedirectURL := "https://iam.example.com/sso/done";
         OAuth2.HostedDomains := [] |} |} "other.com" = true
  ∧ (OAuth2.checkHostedDomain Sim.acme "other.com" = true ↔ "other.com" ∈ ["acme.com"])
  ∧ (OAuth2.ExchangeCode Sim.acme "4/abc" Sim.other_domain).1
    = Err (Errorf "email from non-allowed hosted domain other.com").
Proof.
  split_and!.
  - refine (proj1 (hosted_domain_policy (W:=Sim.World) _ "other.com") _). reflexivity.
  - refine (proj1 (proj2 (hosted_domain_policy (W:=Sim.World) Sim.acme "other.com")) _).
    cbn. discriminate.
  - destruct (hosted_domain_policy (W:=Sim.World) Sim.acme "other.com") as (_ & _ & Hrej).
    rewrite (Hrej "4/abc" Sim.other_domain
               {| Models.AccessToken := "AT1"; Models.RefreshToken := "RT1";
                  Models.TokenType := "Bearer";
                  Models.Expiry := 1500003600000000000%Z; Models.Email := "" |}
               (OAuth2.tokenFromCode Sim.acme "4/abc" Sim.other_domain).2
               {| OAuth2.userInfo_Email := "b@other.com";
                  OAuth2.HostedDomain := "other.com" |}
               (OAuth2.getUserInfo "AT1"
                  (OAuth2.tokenFromCode Sim.acme "4/abc" Sim.other_domain).2).2).
    + reflexivity.
    + vm_compute. reflexivity.
    + vm_compute. reflexivity.
    + reflexivity.
    + reflexivity.
Defined.

(** ** An identity without hosted domain *)

Lemma userInfo_field_of_hd key :
  OAuth2.userInfo_field_of key = Some OAuth2.field_HostedDomain →
  Strings.EqualFold key "hd" = true.
Proof.
  unfold OAuth2.userInfo_field_of.
  destruct (String.eqb key "email"); [discriminate|].
  destruct (String.eqb key "hd") eqn:Hhd.
  { apply String.eqb_eq in Hhd. by subst key. }
  destruct (Strings.EqualFold key "email"); [discriminate|].
  by destruct (Strings.EqualFold key "hd").
Qed.

(** Members that do not select [hd] leave the hosted domain as it is. *)
Lemma userInfo_member_keeps_hd acc kv :
  Strings.EqualFold kv.1 "hd" = false →
  OAuth2.HostedDomain (OAuth2.userInfo_member acc kv).1 = OAuth2.HostedDomain acc.1.
Proof.
  intros Hkey. destruct acc as [ui err]. unfold OAuth2.userInfo_member.
  destruct (OAuth2.userInfo_field_of kv.1) as [[]|] eqn:Hf; [| |done].
  - by destruct kv.2.
  - apply userInfo_field_of_hd in Hf. congruence.
Qed.

Lemma foldl_userInfo_member_keeps_hd members acc :
  Forall (λ kv, Strings.EqualFold kv.1 "hd" = false) members →
  OAuth2.HostedDomain (foldl OAuth2.userInfo_member acc members).1
  = OAuth2.HostedDomain acc.1.
Proof.
  intros Hall. revert acc.
  induction Hall as [|kv members Hkv _ IH]; intros acc; [done|].
  cbn [foldl]. rewrite IH. by apply userInfo_member_keeps_hd.
Qed.

Lemma Unmarshal_userInfo_without_hd members ui :
  Forall (λ kv, Strings.EqualFold kv.1 "hd" = false) members →
  OAuth2.Unmarshal_userInfo (Some (JSON.Object members)) = inr ui →
  OAuth2.HostedDomain ui = "".
Proof.
  intros Hall. unfold OAuth2.Unmarshal_userInfo.
  pose proof (foldl_userInfo_member_keeps_hd members
    ({| OAuth2.userInfo_Email := ""; OAuth2.HostedDomain := "" |}, None) Hall) as Hhd.
  destruct (foldl _ _ members) as [ui' [e|]]; intros Hdec; inversion Hdec; by subst.
Qed.

(** C10. Let the identity endpoint answer with an object none of whose keys
    is [hd] (in any case of the letters). If it decodes, the hosted domain
    is the empty string; the policy accepts it exactly when the allow-list
    is empty or has the empty string among its entries; and when it does
    not, [ExchangeCode] fails with the policy error, which names an empty
    domain. *)
Theorem identity_without_hosted_domain {W} `{Deps W} g members ui :
  Forall (λ kv, Strings.EqualFold kv.1 "hd" = false) members →
  OAuth2.Unmarshal_userInfo (Some (JSON.Object members)) = inr ui →
  OAuth2.HostedDomain ui = ""
  ∧ (OAuth2.checkHostedDomain g (OAuth2.HostedDomain ui) = true
     ↔ OAuth2.HostedDomains (OAuth2.config g) = []
       ∨ "" ∈ OAuth2.HostedDomains (OAuth2.config g))
  ∧ (∀ code (s : State W) t s1 res w,
       OAuth2.tokenFromCode g code s = (Ok t, s1) →
       client_Do (OAuth2.userRequest (Models.AccessToken t)) (world s1) = (inr res, w) →
       HTTP.Body res = Some (JSON.Object members) →
       OAuth2.checkHostedDomain g (OAuth2.HostedDomain ui) = false →
       OAuth2.ExchangeCode g code s
       = (Err (Errorf "email from non-allowed hosted domain "),
          mkState w (log s1 ++
            [client_Do_call (OAuth2.userRequest (Models.AccessToken t)) (inr res)]))).
Proof.
  intros Hall Hdec.
  pose proof (Unmarshal_userInfo_without_hd members ui Hall Hdec) as Hhd.
  split_and!; [done|by rewrite Hhd, checkHostedDomain_spec|].
  intros code s t s1 res w Htok Hdo Hbody Hchk.
  erewrite ExchangeCode_domain_rejected; [|done| |done].
  - by rewrite Hhd.
  - unfold OAuth2.getUserInfo. erewrite bind_Ok; [|by apply Do_Ok].
    by rewrite Hbody, Hdec.
Qed.

Lemma identity_without_hosted_domain_witness :
  OAuth2.HostedDomain {| OAuth2.userInfo_Email := "c@gmail.com";
                         OAuth2.HostedDomain := "" |} = ""
  ∧ (OAuth2.ExchangeCode Sim.acme "4/abc" Sim.no_hosted_domain).1
    = Err (Errorf "email from non-allowed hosted domain ").
Proof.
  destruct (identity_without_hosted_domain (W:=Sim.World) Sim.acme
              [("email", JSON.Str "c@gmail.com")]
              {| OAuth2.userInfo_Email := "c@gmail.com"; OAuth2.HostedDomain := "" |})
    as (Hhd & _ & Hrej).
  - repeat constructor.
  - reflexivity.
  - split; [exact Hhd|].
    rewrite (Hrej "4/abc" Sim.no_hosted_domain
               {| Models.AccessToken := "AT1"; Models.RefreshToken := "RT1";
                  Models.TokenType := "Bearer";
                  Models.Expiry := 1500003600000000000%Z; Models.Email := "" |}
               (OAuth2.tokenFromCode Sim.acme "4/abc" Sim.no_hosted_domain).2
               {| HTTP.StatusCode := 200%Z;
                  HTTP.Body := Some (JSON.Object [("email", JSON.Str "c@gmail.com")]) |}
               (world Sim.no_hosted_domain)).
    + reflexivity.
    + vm_compute. reflexivity.
    + vm_compute. reflexivity.
    + reflexivity.
    + reflexivity.
Defined.

(** ** The expiry of a new token *)

Lemma wrap_int64_small z : (- 2 ^ 63 <= z < 2 ^ 63)%Z → wrap_int64 z = z.
Proof. intros Hz. unfold wrap_int64. rewrite Z.mod_small; lia. Qed.

(** Whole seconds that fit a [time.Duration] are converted and scaled
    without loss. *)
Lemma seconds_of_float64 f n :
  float64_trunc f = Some n →
  (- 9223372036 <= n <= 9223372036)%Z →
  Duration_mul Second (Duration_of_float64 f) = (n * 1000000000)%Z.
Proof.
  intros Hf Hn. unfold Duration_of_float64, Duration_mul, Second. rewrite Hf.
  rewrite decide_True by lia. rewrite wrap_int64_small; lia.
Qed.

(** What a successful [ExchangeCode] did, step by step. *)
Lemma ExchangeCode_Ok_inv {W} `{Deps W} g code (s : State W) auth s' :
  OAuth2.ExchangeCode g code s = (Ok auth, s') →
  ∃ t s1 ui s2 w,
    OAuth2.tokenFromCode g code s = (Ok t, s1)
    ∧ OAuth2.getUserInfo (Models.AccessToken t) s1 = (Ok ui, s2)
    ∧ OAuth2.checkHostedDomain g (OAuth2.HostedDomain ui) = true
    ∧ tokens_Save (OAuth2.set_Email t (OAuth2.userInfo_Email ui)) (world s2) = (None, w)
    ∧ s' = mkState w (log s2 ++
             [tokens_Save_call (OAuth2.set_Email t (OAuth2.userInfo_Email ui)) None])
    ∧ auth = {| OAuth2.AccessToken := Models.AccessToken t;
                OAuth2.Email := OAuth2.userInfo_Email ui |}.
Proof.
  unfold OAuth2.ExchangeCode. intros Hrun.
  apply bind_Ok_inv in Hrun as (t & s1 & Htok & Hrun).
  apply bind_Ok_inv in Hrun as (ui & s2 & Hui & Hrun).
  destruct (OAuth2.checkHostedDomain g (OAuth2.HostedDomain ui)) eqn:Hchk;
    cbn in Hrun; [|discriminate].
  apply bind_Ok_inv in Hrun as (u & s3 & Hsave & Hrun).
  inversion Hrun; subst; clear Hrun.
  apply Save_Ok_inv in Hsave as (w & Hsave & ->).
  by exists t, s1, ui, s2, w.
Qed.

(** C8, as the code has it. Let the token endpoint report the lifetime
    [expires_in], a number whose integer part [n] is at least 1 second and
    at most 9223372036 seconds (the most a [time.Duration] holds), and let
    [now] be what the clock shows after the answer. The one token a
    successful [ExchangeCode] saves has expiry [now] plus [n] seconds, which
    is strictly later than [now]. *)
Theorem new_token_expires_in_the_future {W} `{Deps W} g code (s : State W)
    tokenRes w1 tmap expires_in n now w2 auth s' :
  client_Do (OAuth2.tokenRequest g code) (world s) = (inr tokenRes, w1) →
  OAuth2.Unmarshal_map (HTTP.Body tokenRes) = inr tmap →
  tmap !! "expires_in" = Some (JSON.Number expires_in) →
  float64_trunc expires_in = Some n →
  (1 <= n <= 9223372036)%Z →
  time_Now w1 = (now, w2) →
  OAuth2.ExchangeCode g code s = (Ok auth, s') →
  ∃ t userRes,
    log s' = log s ++
      [ client_Do_call (OAuth2.tokenRequest g code) (inr tokenRes);
        client_Do_call (OAuth2.userRequest (Models.AccessToken t)) (inr userRes);
        tokens_Save_call t None ]
    ∧ Models.Expiry t = (now + n * 1000000000)%Z
    ∧ (now < Models.Expiry t)%Z.
Proof.
  intros Hdo Hmap Hexp Hn Hrange Hnow Hrun.
  apply ExchangeCode_Ok_inv in Hrun as (t & s1 & ui & s2 & w & Htok & Hui & _ & _ & -> & _).
  apply tokenFromCode_Ok_inv in Htok
    as (res & w1' & tmap' & f & now' & w2' & Hdo' & Hmap' & _ & _ & _ & Hexp' & Hnow'
        & Hexpiry & _ & ->).
  rewrite Hdo in Hdo'. inversion Hdo'; subst res w1'; clear Hdo'.
  rewrite Hmap in Hmap'. inversion Hmap'; subst tmap'; clear Hmap'.
  rewrite Hexp in Hexp'. inversion Hexp'; subst f; clear Hexp'.
  rewrite Hnow in Hnow'. inversion Hnow'; subst now' w2'; clear Hnow'.
  apply getUserInfo_Ok_inv in Hui as (userRes & w3 & _ & _ & ->).
  exists (OAuth2.set_Email t (OAuth2.userInfo_Email ui)), userRes. cbn.
  rewrite Hexpiry, (seconds_of_float64 _ n) by (done || lia).
  unfold Time_Add. split_and!; [by rewrite <- !app_assoc|done|lia].
Qed.

Lemma new_token_expires_in_the_future_witness :
  ∃ t userRes,
    log (OAuth2.ExchangeCode Sim.acme "4/abc" Sim.scenario2).2 = log Sim.scenario2 ++
      [ client_Do_call (OAuth2.tokenRequest Sim.acme "4/abc")
          (inr {| HTTP.StatusCode := 200%Z; HTTP.Body := Some (Sim.tokenJSON 3600) |});
        client_Do_call (OAuth2.userRequest (Models.AccessToken t)) (inr userRes);
        tokens_Save_call t None ]
    ∧ Models.Expiry t = (1500000000000000000 + 3600 * 1000000000)%Z
    ∧ (1500000000000000000 < Models.Expiry t)%Z.
Proof.
  apply (new_token_expires_in_the_future Sim.acme "4/abc" Sim.scenario2
           {| HTTP.StatusCode := 200%Z; HTTP.Body := Some (Sim.tokenJSON 3600) |}
           (world Sim.scenario2)
           (list_to_map [ ("access_token", JSON.Str "AT1");
                          ("refresh_token", JSON.Str "RT1");
                          ("token_type", JSON.Str "Bearer");
                          ("expires_in", JSON.Number (Sim.float_of_N 3600)) ])
           (Sim.float_of_N 3600) 3600%Z 1500000000000000000%Z (world Sim.scenario2)
           {| OAuth2.AccessToken := "AT1"; OAuth2.Email := "a@acme.com" |}).
  - reflexivity.
  - vm_compute. reflexivity.
  - vm_compute. reflexivity.
  - reflexivity.
  - lia.
  - reflexivity.
  - vm_compute. reflexivity.
Defined.

(** C8 as stated fails: a lifetime of zero seconds is accepted, and the token
    saved expires at the very instant the clock shows when it is made. *)
Lemma zero_lifetime_is_accepted :
  (OAuth2.ExchangeCode Sim.acme "4/abc" Sim.zero_lifetime).1
  = Ok {| OAuth2.AccessToken := "AT1"; OAuth2.Email := "a@acme.com" |}
  ∧ log (OAuth2.ExchangeCode Sim.acme "4/abc" Sim.zero_lifetime).2
    = [ client_Do_call (OAuth2.tokenRequest Sim.acme "4/abc")
          (inr {| HTTP.StatusCode := 200%Z; HTTP.Body := Some (Sim.tokenJSON 0) |});
        client_Do_call (OAuth2.userRequest "AT1")
          (inr {| HTTP.StatusCode := 200%Z; HTTP.Body := Some Sim.userJSON |});
        tokens_Save_call Sim.zero_lifetime_token None ]
  ∧ time_Now (world Sim.zero_lifetime)
    = (1500000000000000000%Z, world Sim.zero_lifetime)
  ∧ ¬ (1500000000000000000 < Models.Expiry Sim.zero_lifetime_token)%Z.
Proof. split_and!; [vm_compute; reflexivity..|cbn; lia]. Qed.

(** The fraction of a lifetime is dropped, and a lifetime beyond the range
    of [time.Duration] wraps around to the past. *)
Example lifetime_fraction :
  Duration_mul Second (Duration_of_float64 (S754_finite false 3 (-1))) = 1000000000%Z.
Proof. reflexivity. Qed.

Example lifetime_overflow :
  Duration_mul Second (Duration_of_float64 (Sim.float_of_N 9223372037))
  = (-9223372036709551616)%Z.
Proof. reflexivity. Qed.

(** ** The authorization URL *)

Lemma authParams_keys g state :
  (OAuth2.authParams g state).*1
  = [ "state"; "redirect_uri"; "client_id"; "scope"; "access_type";
      "include_granted_scopes"; "response_type"; "prompt" ].
Proof. reflexivity. Qed.

(** The entries of the map are the eight of the literal. *)
Lemma authParams_entries g state :
  map_to_list (list_to_map (M := gmap string string) (OAuth2.authParams g state))
  ≡ₚ OAuth2.authParams g state.
Proof.
  apply map_to_list_to_map. rewrite authParams_keys.
  apply (bool_decide_unpack _). vm_compute. exact I.
Qed.

(** What [BuildAuthURL] may return: the endpoint, a question mark and the
    eight parameters in some order. *)
Lemma BuildAuthURL_spec g state url :
  OAuth2.BuildAuthURL g state url
  ↔ ∃ visited, visited ≡ₚ OAuth2.authParams g state
      ∧ url = OAuth2.authEndpoint +:+ "?" +:+
              Strings.Join ((λ kv, kv.1 +:+ "=" +:+ kv.2) <$> visited) "&".
Proof.
  unfold OAuth2.BuildAuthURL, OAuth2.mapToQueryStrings, OAuth2.range_order,
    OAuth2.buildURL, OAuth2.mapToQueryStrings_visit.
  split.
  - intros (qs & (visited & Hperm & ->) & ->). exists visited.
    split; [|done]. by rewrite Hperm, authParams_entries.
  - intros (visited & Hperm & ->). eexists. split; [|done].
    exists visited. split; [|done]. by rewrite Hperm, authParams_entries.
Qed.

(** C6 as stated fails: for one configuration and one state, the order as
    written and the reverse order are two results of [BuildAuthURL], and
    they are two different strings. *)
Lemma BuildAuthURL_is_not_a_function :
  OAuth2.BuildAuthURL Sim.acme "xyz"
    (OAuth2.buildURL OAuth2.authEndpoint
       (OAuth2.mapToQueryStrings_visit (OAuth2.authParams Sim.acme "xyz")))
  ∧ OAuth2.BuildAuthURL Sim.acme "xyz"
      (OAuth2.buildURL OAuth2.authEndpoint
         (OAuth2.mapToQueryStrings_visit (reverse (OAuth2.authParams Sim.acme "xyz"))))
  ∧ OAuth2.buildURL OAuth2.authEndpoint
      (OAuth2.mapToQueryStrings_visit (OAuth2.authParams Sim.acme "xyz"))
    ≠ OAuth2.buildURL OAuth2.authEndpoint
        (OAuth2.mapToQueryStrings_visit (reverse (OAuth2.authParams Sim.acme "xyz"))).
Proof.
  split_and!.
  - apply BuildAuthURL_spec. by exists (OAuth2.authParams Sim.acme "xyz").
  - apply BuildAuthURL_spec. exists (reverse (OAuth2.authParams Sim.acme "xyz")).
    split; [apply reverse_Permutation|done].
  - vm_compute. discriminate.
Qed.

(** C6, as the code has it. Two results of [BuildAuthURL] for the same
    configuration and state are the endpoint followed by the same eight
    [key=value] parameters, each joined by [&] in an order of its own. The
    values depend on the configuration and the state alone, and the function
    has no dependency to call. *)
Theorem BuildAuthURL_same_parameters g state url1 url2 :
  OAuth2.BuildAuthURL g state url1 →
  OAuth2.BuildAuthURL g state url2 →
  ∃ visited1 visited2,
    visited1 ≡ₚ OAuth2.authParams g state
    ∧ visited2 ≡ₚ visited1
    ∧ url1 = OAuth2.authEndpoint +:+ "?" +:+
             Strings.Join ((λ kv, kv.1 +:+ "=" +:+ kv.2) <$> visited1) "&"
    ∧ url2 = OAuth2.authEndpoint +:+ "?" +:+
             Strings.Join ((λ kv, kv.1 +:+ "=" +:+ kv.2) <$> visited2) "&".
Proof.
  intros (v1 & Hv1 & ->)%BuildAuthURL_spec (v2 & Hv2 & ->)%BuildAuthURL_spec.
  exists v1, v2. split_and!; [done| |done..]. by rewrite Hv1, Hv2.
Qed.

Lemma BuildAuthURL_same_parameters_witness :
  ∃ visited1 visited2,
    visited1 ≡ₚ OAuth2.authParams Sim.acme "xyz"
    ∧ visited2 ≡ₚ visited1
    ∧ OAuth2.buildURL OAuth2.authEndpoint
        (OAuth2.mapToQueryStrings_visit (OAuth2.authParams Sim.acme "xyz"))
      = OAuth2.authEndpoint +:+ "?" +:+
        Strings.Join ((λ kv, kv.1 +:+ "=" +:+ kv.2) <$> visited1) "&"
    ∧ OAuth2.buildURL OAuth2.authEndpoint
        (OAuth2.mapToQueryStrings_visit (reverse (OAuth2.authParams Sim.acme "xyz")))
      = OAuth2.authEndpoint +:+ "?" +:+
        Strings.Join ((λ kv, kv.1 +:+ "=" +:+ kv.2) <$> visited2) "&".
Proof.
  apply (BuildAuthURL_same_parameters Sim.acme "xyz").
  - apply BuildAuthURL_spec. by exists (OAuth2.authParams Sim.acme "xyz").
  - apply BuildAuthURL_spec. exists (reverse (OAuth2.authParams Sim.acme "xyz")).
    split; [apply reverse_Permutation|done].
Defined.

(** ** Facts about the string functions *)

Section StringFacts.
Import Strings.

Lemma append_String c s t : String c s +:+ t = String c (s +:+ t).
Proof. reflexivity. Qed.

Lemma append_empty t : "" +:+ t = t.
Proof. reflexivity. Qed.

Lemma ContainsByte_app c s1 s2 :
  ContainsByte c (s1 +:+ s2) = ContainsByte c s1 || ContainsByte c s2.
Proof.
  induction s1 as [|d s1 IH]; [done|]. rewrite append_String. cbn.
  by destruct (Ascii.eqb c d).
Qed.

Lemma ContainsByte_Join c l sep :
  ContainsByte c sep = false →
  Forall (λ e, ContainsByte c e = false) l →
  ContainsByte c (Join l sep) = false.
Proof.
  intros Hsep Hall. induction Hall as [|e l He Hl IH]; [done|].
  destruct l as [|e' l]; [done|].
  change (Join (e :: e' :: l) sep) with (e +:+ sep +:+ Join (e' :: l) sep).
  by rewrite !ContainsByte_app, He, Hsep, IH.
Qed.

Lemma Cut_absent sep s : ContainsByte sep s = false → Cut sep s = (s, None).
Proof.
  induction s as [|c s IH]; [done|]. cbn. rewrite (Ascii.eqb_sym c sep).
  destruct (Ascii.eqb sep c); [done|]. intros Hs. by rewrite (IH Hs).
Qed.

Lemma Cut_app_sep sep p r :
  ContainsByte sep p = false → Cut sep (p +:+ String sep r) = (p, Some r).
Proof.
  induction p as [|c p IH]; [rewrite append_empty|rewrite append_String]; cbn.
  - by rewrite Ascii.eqb_refl.
  - rewrite (Ascii.eqb_sym c sep). destruct (Ascii.eqb sep c); [done|].
    intros Hp. by rewrite (IH Hp).
Qed.

Lemma Split_nonempty sep s : Split sep s ≠ [].
Proof.
  destruct s as [|c s]; [done|]. cbn.
  destruct (Ascii.eqb c sep); [done|]. by destruct (Split sep s).
Qed.

Lemma Split_absent sep s : ContainsByte sep s = false → Split sep s = [s].
Proof.
  induction s as [|c s IH]; [done|]. cbn. rewrite (Ascii.eqb_sym c sep).
  destruct (Ascii.eqb sep c); [done|]. intros Hs. by rewrite (IH Hs).
Qed.

Lemma Split_app_sep sep p r :
  Split sep (p +:+ String sep r) = Split sep p ++ Split sep r.
Proof.
  induction p as [|c p IH]; [rewrite append_empty|rewrite append_String]; cbn.
  - by rewrite Ascii.eqb_refl.
  - destruct (Ascii.eqb c sep); [by rewrite IH|].
    rewrite IH. pose proof (Split_nonempty sep p) as Hne.
    by destruct (Split sep p).
Qed.

(** Splitting what [Join] glued: the pieces of every element, in order. *)
Lemma Split_Join sep l :
  l ≠ [] → Split sep (Join l (String sep "")) = l ≫= Split sep.
Proof.
  intros Hne. induction l as [|e l IH]; [done|].
  destruct l as [|e' l].
  - cbn. by rewrite app_nil_r.
  - change (Join (e :: e' :: l) (String sep ""))
      with (e +:+ String sep (Join (e' :: l) (String sep ""))).
    rewrite Split_app_sep, IH by done. done.
Qed.

End StringFacts.

Section URLFacts.
Import URL.


Lemma omap_bind {A B C} (f : B → option C) (g : A → list B) (l : list A) :
  omap f (l ≫= g) = l ≫= (λ a, omap f (g a)).
Proof.
  induction l as [|a l IH]; [done|]. cbn. by rewrite omap_app, IH.
Qed.

Lemma index_app v1 v2 key : index (v1 ++ v2) key = index v1 key ++ index v2 key.
Proof. unfold index. by rewrite filter_app, fmap_app. Qed.

End URLFacts.

(** ** Reading the state back from the authorization URL *)

Section ReadbackFacts.
Import Readback.

(** The query string of the entries visited, as its reader splits it. *)
Lemma ParseQuery_visited visited :
  visited ≠ [] →
  URL.ParseQuery (OAuth2.mapToQueryStrings_visit visited) = visited ≫= read.
Proof.
  intros Hne. unfold URL.ParseQuery, OAuth2.mapToQueryStrings_visit.
  rewrite Split_Join by (by destruct visited).
  rewrite omap_bind, list_fmap_bind. done.
Qed.

(** The first setting under [state] among the settings of the entries. *)
Lemma Get_state_visited value visited :
  Forall (λ kv, harmless value kv = true) visited →
  Exists (λ kv, opens_with "state" value kv = true) visited →
  URL.Get (visited ≫= read) "state" = value.
Proof.
  intros Hall Hex. induction Hall as [|kv visited Hkv _ IH]; [by inversion Hex|].
  unfold URL.Get. cbn [mbind list_bind]. rewrite index_app.
  unfold harmless in Hkv.
  apply andb_prop in Hkv as [_ [Hsilent|Hopens]%orb_prop].
  - apply bool_decide_eq_true in Hsilent. rewrite Hsilent. cbn [app].
    apply IH. inversion Hex as [? ? Hhere|]; subst; [|done].
    exfalso. unfold opens_with in Hhere.
    destruct (read kv) as [|[k v] rest]; [done|].
    apply bool_decide_eq_true in Hhere as [-> ->].
    unfold URL.index in Hsilent. cbn in Hsilent.
    by rewrite decide_True in Hsilent.
  - unfold opens_with in Hopens.
    destruct (read kv) as [|[k v] rest]; [done|].
    apply bool_decide_eq_true in Hopens as [-> ->].
    unfold URL.index. cbn. by rewrite decide_True.
Qed.

(** The state read back from the URL of the entries visited, when every
    entry is harmless and one of them opens with the state. *)
Lemma state_read_back_visited value visited :
  Forall (λ kv, harmless value kv = true) visited →
  Exists (λ kv, opens_with "state" value kv = true) visited →
  URL.state_read_back
    (OAuth2.buildURL OAuth2.authEndpoint (OAuth2.mapToQueryStrings_visit visited))
  = value.
Proof.
  intros Hall Hex.
  assert (Hne : visited ≠ []) by (intros ->; inversion Hex).
  unfold URL.state_read_back, URL.Query, OAuth2.buildURL.
  rewrite Cut_absent.
  - change ("?" +:+ OAuth2.mapToQueryStrings_visit visited)
      with (String "?" (OAuth2.mapToQueryStrings_visit visited)).
    rewrite Cut_app_sep by reflexivity. cbv beta iota delta [default from_option id].
    rewrite ParseQuery_visited by done. by apply Get_state_visited.
  - rewrite !ContainsByte_app. cbn [orb].
    change (Strings.ContainsByte "#" OAuth2.authEndpoint) with false.
    change (Strings.ContainsByte "#" "?") with false. cbn [orb].
    apply ContainsByte_Join; [done|]. apply Forall_fmap.
    eapply Forall_impl; [exact Hall|]. intros kv Hkv. cbn.
    unfold harmless, no_fragment in Hkv.
    apply andb_prop in Hkv as [Hfrag _]. by apply negb_true_iff in Hfrag.
Qed.

End ReadbackFacts.




Example state_read_back_plain :
  URL.state_read_back
    (OAuth2.buildURL OAuth2.authEndpoint
       (OAuth2.mapToQueryStrings_visit (OAuth2.authParams Sim.acme "xyz")))
  = "xyz".
Proof. vm_compute. reflexivity. Qed.

Example Query_of_unescaped_state :
  URL.Query
    (OAuth2.buildURL OAuth2.authEndpoint
       (OAuth2.mapToQueryStrings_visit (OAuth2.authParams Sim.acme "a&b")))
  = [ ("state", "a"); ("b", "");
      ("redirect_uri", "https://iam.example.com/sso/done");
      ("client_id", "client-1");
      ("scope", "https://www.googleapis.com/auth/userinfo.profile "
                +:+ "https://www.googleapis.com/auth/userinfo.email");
      ("access_type", "offline"); ("include_granted_scopes", "true");
      ("response_type", "code"); ("prompt", "consent") ].
Proof. vm_compute. reflexivity. Qed.

(** C7, at the input where it fails. The state [a&b] is written to the URL
    as it is; in whatever order the parameters come, the state read back
    from the URL is [a]. *)
Theorem BuildAuthURL_state_is_not_escaped url :
  OAuth2.BuildAuthURL Sim.acme "a&b" url → URL.state_read_back url = "a".
Proof.
  intros (visited & Hperm & ->)%BuildAuthURL_spec.
  apply (state_read_back_visited "a" visited); rewrite Hperm.
  - unfold OAuth2.authParams.
    repeat apply Forall_cons_2; [..|by apply Forall_nil]; vm_compute; reflexivity.
  - apply Exists_cons_hd. vm_compute. reflexivity.
Qed.

Lemma BuildAuthURL_state_is_not_escaped_witness :
  URL.state_read_back
    (OAuth2.buildURL OAuth2.authEndpoint
       (OAuth2.mapToQueryStrings_visit (OAuth2.authParams Sim.acme "a&b")))
  = "a".
Proof.
  apply BuildAuthURL_state_is_not_escaped.
  apply BuildAuthURL_spec. by exists (OAuth2.authParams Sim.acme "a&b").
Defined.

(** ** The roles of a service account *)

Section Roles.
Import Repositories.

(** The rows the query selects are the bound roles. *)
Lemma elem_of_select_roles st serviceAccountID r :
  r ∈ select_roles st serviceAccountID ↔ bound_role st serviceAccountID r.
Proof.
  unfold select_roles, bound_role. rewrite list_elem_of_bind. split.
  - intros (r' & Hin & Hr'). apply list_elem_of_bind in Hin as (rb & Hin & Hrb).
    case_decide as Hcond; [|by apply not_elem_of_nil in Hin].
    apply list_elem_of_singleton in Hin as ->. destruct Hcond. eauto.
  - intros (Hr & rb & Hrb & Hid & Hsa). exists r. split; [|done].
    apply list_elem_of_bind. exists rb. split; [|done].
    rewrite decide_True by done. by apply list_elem_of_singleton.
Qed.

(** Without a binding of the account the query selects no row. *)
Lemma select_roles_no_binding st serviceAccountID :
  bindings_of st serviceAccountID = [] → select_roles st serviceAccountID = [].
Proof.
  intros Hnone.
  destruct (select_roles st serviceAccountID) as [|r l] eqn:Hsel; [done|].
  assert (Hr : r ∈ select_roles st serviceAccountID) by (rewrite Hsel; left).
  apply elem_of_select_roles in Hr as (_ & rb & Hrb & _ & Hsa).
  assert (Hin : rb ∈ bindings_of st serviceAccountID)
    by (by apply list_elem_of_filter).
  rewrite Hnone in Hin. by apply not_elem_of_nil in Hin.
Qed.

(** C9. As long as the database answers: for a service account without
    bindings [ForServiceAccountID] returns the empty slice and no error; in
    general the roles it returns are, as a set, the roles bound to the
    account; and a database that holds the same rows, inserted in another
    order, returns the same set. *)
Theorem ForServiceAccountID_bound_roles st st' serviceAccountID :
  broken st = None →
  (∀ rows, deliver st rows ≡ₚ rows) →
  broken st' = None →
  (∀ rows, deliver st' rows ≡ₚ rows) →
  roles_table st' ≡ₚ roles_table st →
  role_bindings_table st' ≡ₚ role_bindings_table st →
  ∃ roles roles',
    ForServiceAccountID st serviceAccountID = Ok roles
    ∧ ForServiceAccountID st' serviceAccountID = Ok roles'
    ∧ (bindings_of st serviceAccountID = [] → roles = [])
    ∧ (∀ r, r ∈ roles ↔ bound_role st serviceAccountID r)
    ∧ (∀ r, r ∈ roles' ↔ r ∈ roles).
Proof.
  intros Hup Hdeliver Hup' Hdeliver' Hroles Hbindings.
  exists (deliver st (select_roles st serviceAccountID)),
         (deliver st' (select_roles st' serviceAccountID)).
  unfold ForServiceAccountID, Query_roles. rewrite Hup, Hup'. split_and!.
  - done.
  - done.
  - intros Hnone. apply Permutation_nil_r.
    by rewrite Hdeliver, (select_roles_no_binding _ _ Hnone).
  - intros r. by rewrite Hdeliver, elem_of_select_roles.
  - intros r. rewrite Hdeliver, Hdeliver', !elem_of_select_roles.
    unfold bound_role. rewrite Hroles. by setoid_rewrite Hbindings.
Qed.

End Roles.

Example ForServiceAccountID_sa1 :
  Repositories.ForServiceAccountID Sim.storage "sa1" = Ok [Sim.viewer; Sim.admin]
  ∧ Repositories.ForServiceAccountID Sim.storage_reordered "sa1"
    = Ok [Sim.admin; Sim.viewer].
Proof. split; reflexivity. Qed.

Example ForServiceAccountID_unknown :
  Repositories.ForServiceAccountID Sim.storage "sa9" = Ok [].
Proof. reflexivity. Qed.

Example ForServiceAccountID_broken :
  Repositories.ForServiceAccountID
    {| Repositories.roles_table := [Sim.admin];
       Repositories.role_bindings_table := [];
       Repositories.broken := Some (storageError "connection refused");
       Repositories.deliver := id |} "sa1"
  = Err (storageError "connection refused").
Proof. reflexivity. Qed.

Lemma ForServiceAccountID_bound_roles_witness :
  ∃ roles roles',
    Repositories.ForServiceAccountID Sim.storage "sa1" = Ok roles
    ∧ Repositories.ForServiceAccountID Sim.storage_reordered "sa1" = Ok roles'
    ∧ (Repositories.bindings_of Sim.storage "sa1" = [] → roles = [])
    ∧ (∀ r, r ∈ roles ↔ Repositories.bound_role Sim.storage "sa1" r)
    ∧ (∀ r, r ∈ roles' ↔ r ∈ roles).
Proof.
  apply (ForServiceAccountID_bound_roles Sim.storage Sim.storage_reordered "sa1").
  - reflexivity.
  - intros rows. apply reverse_Permutation.
  - reflexivity.
  - intros rows. reflexivity.
  - reflexivity.
  - apply reverse_Permutation.
Defined.

(** * Further properties of the code *)

(** ** Every run of the provider, by outcome *)

Section Runs.
Context {W : Type} `{Deps W}.

Local Ltac close_run r0 tmap :=
  unfold ret; intros ?; simplify_eq; exists (inr r0); cbn; split; [done|];
  exists r0, tmap; split_and!; [done..|];
  repeat match goal with Hk : tmap !! _ = _ |- _ => rewrite Hk; clear Hk end;
  done.

(** Every run of [tokenFromCode]: one call, the POST, and what its answer
    was like for each outcome. *)
Lemma tokenFromCode_run g code (s : State W) r s' :
  OAuth2.tokenFromCode g code s = (r, s') →
  ∃ res,
    log s' = log s ++ [client_Do_call (OAuth2.tokenRequest g code) res]
    ∧ match r with
      | Ok t =>
          ∃ r0 tmap, res = inr r0
            ∧ OAuth2.Unmarshal_map (HTTP.Body r0) = inr tmap
            ∧ Runs.well_typed tmap = true
      | Err e =>
          res = inl e
          ∨ ∃ r0, res = inr r0 ∧ OAuth2.Unmarshal_map (HTTP.Body r0) = inl e
      | Panic msg =>
          ∃ r0 tmap, res = inr r0
            ∧ OAuth2.Unmarshal_map (HTTP.Body r0) = inr tmap
            ∧ Runs.well_typed tmap = false
      end.
Proof.
  unfold OAuth2.tokenFromCode, bind, Do, Now, OAuth2.lift, Runs.well_typed.
  destruct (client_Do _ (world s)) as [[e|r0] w1] eqn:Hdo; cbn.
  { intros ?; simplify_eq. exists (inl e). cbn. eauto. }
  destruct (OAuth2.Unmarshal_map (HTTP.Body r0)) as [e|tmap] eqn:Hmap; cbn.
  { intros ?; simplify_eq. exists (inr r0). cbn. eauto. }
  destruct (tmap !! "access_token") as [[]|] eqn:Hat; cbn;
    try by close_run r0 tmap.
  destruct (tmap !! "refresh_token") as [[]|] eqn:Hrt; cbn;
    try by close_run r0 tmap.
  destruct (tmap !! "token_type") as [[]|] eqn:Htt; cbn;
    try by close_run r0 tmap.
  destruct (time_Now w1) as [now w2].
  destruct (tmap !! "expires_in") as [[]|] eqn:Hex; cbn; by close_run r0 tmap.
Qed.

(** Every run of [getUserInfo]: one call, the GET; it does not panic. *)
Lemma getUserInfo_run accessToken (s : State W) r s' :
  OAuth2.getUserInfo accessToken s = (r, s') →
  ∃ res,
    log s' = log s ++ [client_Do_call (OAuth2.userRequest accessToken) res]
    ∧ match r with
      | Ok ui =>
          ∃ r0, res = inr r0 ∧ OAuth2.Unmarshal_userInfo (HTTP.Body r0) = inr ui
      | Err e =>
          res = inl e
          ∨ ∃ r0, res = inr r0 ∧ OAuth2.Unmarshal_userInfo (HTTP.Body r0) = inl e
      | Panic msg => False
      end.
Proof.
  unfold OAuth2.getUserInfo, bind, Do, OAuth2.lift.
  destruct (client_Do _ (world s)) as [[e|r0] w1] eqn:Hdo; cbn.
  { intros ?; simplify_eq. exists (inl e). cbn. eauto. }
  destruct (OAuth2.Unmarshal_userInfo (HTTP.Body r0)) as [e|ui] eqn:Hdec; cbn;
    unfold ret, fail; intros ?; simplify_eq; exists (inr r0); cbn; (split; [done|]);
    [right|]; by exists r0.
Qed.

End Runs.

(** X1. Whatever its outcome, [ExchangeCode] calls the token endpoint first
    and at most the identity endpoint and [Save] after it, in this order and
    each once; it never reads the repository. [Save] is reached only with an
    identity that decoded and whose hosted domain passed the policy, for a
    token that carries the email of that identity; the outcome is a panic
    only when the answer of the token endpoint decoded to a map that lacks
    one of the four members or has it with another type. *)
Theorem ExchangeCode_calls {W} `{Deps W} g code (s : State W) r s' :
  OAuth2.ExchangeCode g code s = (r, s') →
  ∃ calls, log s' = log s ++ calls ∧ Runs.ExchangeCode_run g code r calls.
Proof.
  unfold OAuth2.ExchangeCode, bind, ret, fail.
  destruct (OAuth2.tokenFromCode g code s) as [[t|e|msg] s1] eqn:Htok;
    apply tokenFromCode_run in Htok as (res & Hlog1 & Hres).
  2:{ intros ?; simplify_eq. eexists. split; [done|].
      destruct Hres as [->|(r0 & -> & Hmap)]; [constructor|by constructor]. }
  2:{ intros ?; simplify_eq. eexists. split; [done|].
      destruct Hres as (r0 & tmap & -> & Hmap & Hty). by econstructor. }
  destruct Hres as (r0 & tmap & -> & Hmap & Hty).
  destruct (OAuth2.getUserInfo (Models.AccessToken t) s1) as [[ui|e|msg] s2] eqn:Hui;
    apply getUserInfo_run in Hui as (ures & Hlog2 & Hures).
  3:{ done. }
  2:{ intros ?; simplify_eq. rewrite Hlog2, Hlog1, <- app_assoc. eexists. split; [done|].
      destruct Hures as [->|(u0 & -> & Hdec)]; [constructor|by constructor]. }
  destruct Hures as (u0 & -> & Hdec).
  destruct (OAuth2.checkHostedDomain g (OAuth2.HostedDomain ui)) eqn:Hchk; cbn.
  2:{ intros ?; simplify_eq. rewrite Hlog2, Hlog1, <- app_assoc. eexists. split; [done|].
      by econstructor. }
  unfold Save.
  destruct (tokens_Save _ (world s2)) as [[e|] w3]; intros ?; simplify_eq; cbn;
    rewrite Hlog2, Hlog1, <- !app_assoc; eexists; (split; [done|]).
  - by apply (Runs.save_failed g code r0 u0 ui
                (OAuth2.set_Email t (OAuth2.userInfo_Email ui)) e).
  - by apply (Runs.exchanged g code r0 u0 ui
                (OAuth2.set_Email t (OAuth2.userInfo_Email ui))).
Qed.

(** X2. Whatever its outcome, [Authenticate] reads the repository first and
    calls the identity endpoint at most once after it, only for a token the
    repository returned without error; it never calls [Save] and it does not
    panic. When it succeeds, the result carries the access token and the
    email of the stored token, not what the identity endpoint reports. *)
Theorem Authenticate_calls {W} `{Deps W} g accessToken (s : State W) r s' :
  OAuth2.Authenticate g accessToken s = (r, s') →
  ∃ calls, log s' = log s ++ calls ∧ Runs.Authenticate_run accessToken r calls.
Proof.
  unfold OAuth2.Authenticate, bind, Get, ret, fail.
  destruct (tokens_Get accessToken (world s)) as [[[t|] [e|]] w1]; cbn;
    try (intros ?; simplify_eq; eexists; split; [done|constructor]).
  destruct (OAuth2.getUserInfo _ _) as [[ui|e|msg] s2] eqn:Hui;
    apply getUserInfo_run in Hui as (ures & Hlog2 & Hures); cbn in Hlog2.
  - destruct Hures as (u0 & -> & Hdec). intros ?; simplify_eq.
    rewrite Hlog2, <- app_assoc. eexists. split; [done|]. by econstructor.
  - intros ?; simplify_eq. rewrite Hlog2, <- app_assoc. eexists. split; [done|].
    destruct Hures as [->|(u0 & -> & Hdec)]; [constructor|by constructor].
  - done.
Qed.

Lemma ExchangeCode_calls_witness :
  ∃ calls,
    log (OAuth2.ExchangeCode Sim.acme "4/abc" Sim.other_domain).2
    = log Sim.other_domain ++ calls
    ∧ Runs.ExchangeCode_run Sim.acme "4/abc"
        (Err (Errorf "email from non-allowed hosted domain other.com")) calls.
Proof.
  apply (ExchangeCode_calls Sim.acme "4/abc" Sim.other_domain).
  vm_compute. reflexivity.
Defined.

Lemma Authenticate_calls_witness :
  ∃ calls,
    log (OAuth2.Authenticate Sim.acme "AT1" Sim.broken_store).2
    = log Sim.broken_store ++ calls
    ∧ Runs.Authenticate_run "AT1" (Err (Errorf "access token not found")) calls.
Proof.
  apply (Authenticate_calls Sim.acme "AT1" Sim.broken_store).
  vm_compute. reflexivity.
Defined.

(** ** The answer of the token endpoint *)

(** X3. When the answer of the token endpoint decodes to a map,
    [tokenFromCode] returns no error: it returns a token, built from the
    four members, if [access_token], [refresh_token] and [token_type] are
    strings and [expires_in] is a number, and it panics otherwise, for
    instance on an answer without [refresh_token]. In both cases the POST
    is the only call. *)
Theorem tokenFromCode_token_or_panic {W} `{Deps W} g code (s : State W) res w1 tmap :
  client_Do (OAuth2.tokenRequest g code) (world s) = (inr res, w1) →
  OAuth2.Unmarshal_map (HTTP.Body res) = inr tmap →
  ∃ r s',
    OAuth2.tokenFromCode g code s = (r, s')
    ∧ log s' = log s ++ [client_Do_call (OAuth2.tokenRequest g code) (inr res)]
    ∧ if Runs.well_typed tmap
      then ∃ t, r = Ok t
             ∧ tmap !! "access_token" = Some (JSON.Str (Models.AccessToken t))
             ∧ tmap !! "refresh_token" = Some (JSON.Str (Models.RefreshToken t))
             ∧ tmap !! "token_type" = Some (JSON.Str (Models.TokenType t))
             ∧ Models.Email t = ""
      else ∃ msg, r = Panic msg.
Proof.
  intros Hdo Hmap.
  destruct (OAuth2.tokenFromCode g code s) as [r s'] eqn:Hrun.
  exists r, s'. split; [done|].
  pose proof Hrun as (res' & Hlog & Hres)%tokenFromCode_run.
  assert (res' = inr res) as ->.
  { unfold OAuth2.tokenFromCode, bind, Do in Hrun. rewrite Hdo in Hrun.
    cbn in Hrun. rewrite Hmap in Hrun. cbn in Hrun.
    assert (Hlog' : log s' = log s ++
              [client_Do_call (OAuth2.tokenRequest g code) (inr res)]).
    { revert Hrun. unfold Now.
      destruct (tmap !! "access_token") as [[]|]; cbn; try (by intros [= _ <-]).
      destruct (tmap !! "refresh_token") as [[]|]; cbn; try (by intros [= _ <-]).
      destruct (tmap !! "token_type") as [[]|]; cbn; try (by intros [= _ <-]).
      destruct (time_Now w1) as [now w2].
      destruct (tmap !! "expires_in") as [[]|]; cbn; by intros [= _ <-]. }
    rewrite Hlog' in Hlog. apply app_inv_head in Hlog. by injection Hlog. }
  split; [done|].
  destruct r as [t|e|msg].
  - destruct Hres as (r0 & tmap' & [= <-] & Hmap' & Hty).
    rewrite Hmap in Hmap'. injection Hmap' as <-. rewrite Hty.
    apply tokenFromCode_Ok_inv in Hrun
      as (res2 & w1' & tmap2 & f & now & w2 & Hdo' & Hmap2 & Hat & Hrt & Htt & _ & _ & _ & Hem & _).
    rewrite Hdo in Hdo'. injection Hdo' as <- <-.
    rewrite Hmap in Hmap2. injection Hmap2 as <-.
    by exists t.
  - destruct Hres as [[=]|(r0 & [= <-] & Hmap')]. congruence.
  - destruct Hres as (r0 & tmap' & [= <-] & Hmap' & Hty).
    rewrite Hmap in Hmap'. injection Hmap' as <-. rewrite Hty. by exists msg.
Qed.

Lemma tokenFromCode_token_or_panic_witness :
  ∃ r s',
    OAuth2.tokenFromCode Sim.acme "4/abc" Sim2.no_refresh_token = (r, s')
    ∧ log s' = log Sim2.no_refresh_token ++
        [client_Do_call (OAuth2.tokenRequest Sim.acme "4/abc")
           (inr {| HTTP.StatusCode := 200%Z;
                   HTTP.Body := Some (JSON.Object
                     [ ("access_token", JSON.Str "AT1");
                       ("token_type", JSON.Str "Bearer");
                       ("expires_in", JSON.Number (Sim.float_of_N 3600)) ]) |})]
    ∧ ∃ msg, r = Panic msg.
Proof.
  destruct (tokenFromCode_token_or_panic Sim.acme "4/abc" Sim2.no_refresh_token
           {| HTTP.StatusCode := 200%Z;
              HTTP.Body := Some (JSON.Object
                [ ("access_token", JSON.Str "AT1");
                  ("token_type", JSON.Str "Bearer");
                  ("expires_in", JSON.Number (Sim.float_of_N 3600)) ]) |}
           (world Sim2.no_refresh_token)
           (list_to_map [ ("access_token", JSON.Str "AT1");
                          ("token_type", JSON.Str "Bearer");
                          ("expires_in", JSON.Number (Sim.float_of_N 3600)) ]))
    as (r & s' & Hrun & Hlog & Hout).
  - vm_compute. reflexivity.
  - vm_compute. reflexivity.
  - exists r, s'. split_and!; [exact Hrun|exact Hlog|].
    vm_compute (Runs.well_typed _) in Hout. exact Hout.
Defined.

Example no_refresh_token_panics :
  (OAuth2.ExchangeCode Sim.acme "4/abc" Sim2.no_refresh_token).1
  = Panic "interface conversion: interface {} is nil, not string".
Proof. vm_compute. reflexivity. Qed.

(** ** The answer of the identity endpoint *)

(** Members the decoder takes without error leave no error behind. *)
Lemma foldl_userInfo_member_decodes members acc :
  Forall (λ kv, Runs.member_decodes kv = true) members →
  (foldl OAuth2.userInfo_member acc members).2 = acc.2.
Proof.
  intros Hall. revert acc.
  induction Hall as [|kv members Hkv _ IH]; intros acc; [done|].
  cbn [foldl]. rewrite IH. destruct acc as [ui err].
  unfold Runs.member_decodes in Hkv. unfold OAuth2.userInfo_member.
  destruct (OAuth2.userInfo_field_of kv.1) as [[]|]; [| |done];
    by destruct kv.2.
Qed.

(** An object all of whose members the decoder takes decodes. *)
Lemma Unmarshal_userInfo_decodes members :
  Forall (λ kv, Runs.member_decodes kv = true) members →
  ∃ ui, OAuth2.Unmarshal_userInfo (Some (JSON.Object members)) = inr ui.
Proof.
  intros Hall. unfold OAuth2.Unmarshal_userInfo.
  pose proof (foldl_userInfo_member_decodes members
    ({| OAuth2.userInfo_Email := ""; OAuth2.HostedDomain := "" |}, None) Hall) as Herr.
  destruct (foldl _ _ members) as [ui err]. cbn in Herr. subst err. by exists ui.
Qed.

(** X4. [Authenticate] does not look at the status of the identity
    endpoint's answer. Whenever the repository returns a token and the
    endpoint answers, with whatever status code, a JSON object in which no
    member named [email] or [hd] has a value other than a string or [null]
    (such as the error document sent with a 401), [Authenticate] succeeds
    with the access token and email of the stored token. *)
Theorem Authenticate_ignores_status {W} `{Deps W} g accessToken (s : State W)
    t w1 res w2 members :
  tokens_Get accessToken (world s) = ((Some t, None), w1) →
  client_Do (OAuth2.userRequest (Models.AccessToken t)) w1 = (inr res, w2) →
  HTTP.Body res = Some (JSON.Object members) →
  Forall (λ kv, Runs.member_decodes kv = true) members →
  OAuth2.Authenticate g accessToken s
  = (Ok {| OAuth2.AccessToken := Models.AccessToken t;
           OAuth2.Email := Models.Email t |},
     mkState w2 (log s ++
       [ tokens_Get_call accessToken (Some t, None);
         client_Do_call (OAuth2.userRequest (Models.AccessToken t)) (inr res) ])).
Proof.
  intros Hget Hdo Hbody Hall.
  destruct (Unmarshal_userInfo_decodes members Hall) as [ui Hdec].
  erewrite (Authenticate_Ok g accessToken s t w1 ui); [done|done|].
  unfold OAuth2.getUserInfo. erewrite bind_Ok; [|by apply Do_Ok].
  cbn. rewrite Hbody, Hdec. cbn. by rewrite <- app_assoc.
Qed.

Lemma Authenticate_ignores_status_witness :
  OAuth2.Authenticate Sim.acme "AT1" Sim2.revoked
  = (Ok {| OAuth2.AccessToken := "AT1"; OAuth2.Email := "a@acme.com" |},
     mkState (world Sim2.revoked)
       [ tokens_Get_call "AT1"
           (Some {| Models.AccessToken := "AT1"; Models.RefreshToken := "RT1";
                    Models.TokenType := "Bearer";
                    Models.Expiry := 1400000000000000000%Z;
                    Models.Email := "a@acme.com" |}, None);
         client_Do_call (OAuth2.userRequest "AT1")
           (inr {| HTTP.StatusCode := 401%Z;
                   HTTP.Body := Some Sim2.unauthorizedJSON |}) ]).
Proof.
  apply (Authenticate_ignores_status Sim.acme "AT1" Sim2.revoked
           {| Models.AccessToken := "AT1"; Models.RefreshToken := "RT1";
              Models.TokenType := "Bearer";
              Models.Expiry := 1400000000000000000%Z;
              Models.Email := "a@acme.com" |}
           (world Sim2.revoked)
           {| HTTP.StatusCode := 401%Z; HTTP.Body := Some Sim2.unauthorizedJSON |}
           (world Sim2.revoked)
           [ ("error", JSON.Object [ ("code", JSON.Number (Sim.float_of_N 401));
                                     ("message", JSON.Str "Invalid Credentials");
                                     ("status", JSON.Str "UNAUTHENTICATED") ]) ]).
  - vm_compute. reflexivity.
  - reflexivity.
  - reflexivity.
  - repeat constructor.
Defined.

(** ** The expiry of a token, for every whole lifetime *)

(** X5. The expiry [tokenFromCode] gives a token is the clock's time plus
    the integer part [n] of [expires_in] in seconds, for every [n] of at
    most 9223372036 seconds in absolute value: the lifetime is not checked,
    so a lifetime of zero or less makes a token that has expired when it is
    made. *)
Theorem tokenFromCode_expiry {W} `{Deps W} g code (s : State W)
    res w1 tmap expires_in n now w2 t s' :
  client_Do (OAuth2.tokenRequest g code) (world s) = (inr res, w1) →
  OAuth2.Unmarshal_map (HTTP.Body res) = inr tmap →
  tmap !! "expires_in" = Some (JSON.Number expires_in) →
  float64_trunc expires_in = Some n →
  (- 9223372036 <= n <= 9223372036)%Z →
  time_Now w1 = (now, w2) →
  OAuth2.tokenFromCode g code s = (Ok t, s') →
  Models.Expiry t = (now + n * 1000000000)%Z
  ∧ ((n <= 0)%Z → (Models.Expiry t <= now)%Z).
Proof.
  intros Hdo Hmap Hexp Hn Hrange Hnow Hrun.
  apply tokenFromCode_Ok_inv in Hrun
    as (res' & w1' & tmap' & f & now' & w2' & Hdo' & Hmap' & _ & _ & _ & Hexp' & Hnow'
        & Hexpiry & _ & _).
  rewrite Hdo in Hdo'. injection Hdo' as <- <-.
  rewrite Hmap in Hmap'. injection Hmap' as <-.
  rewrite Hexp in Hexp'. injection Hexp' as <-.
  rewrite Hnow in Hnow'. injection Hnow' as <- <-.
  rewrite Hexpiry, (seconds_of_float64 _ n) by done.
  unfold Time_Add. split; [done|lia].
Qed.

Lemma tokenFromCode_expiry_witness :
  Models.Expiry
    {| Models.AccessToken := "AT1"; Models.RefreshToken := "RT1";
       Models.TokenType := "Bearer";
       Models.Expiry := 1499999940000000000%Z; Models.Email := "" |}
  = (1500000000000000000 + -60 * 1000000000)%Z
  ∧ ((-60 <= 0)%Z →
     (Models.Expiry
        {| Models.AccessToken := "AT1"; Models.RefreshToken := "RT1";
           Models.TokenType := "Bearer";
           Models.Expiry := 1499999940000000000%Z; Models.Email := "" |}
      <= 1500000000000000000)%Z).
Proof.
  apply (tokenFromCode_expiry Sim.acme "4/abc" Sim2.negative_lifetime
           {| HTTP.StatusCode := 200%Z;
              HTTP.Body := Some (JSON.Object
                [ ("access_token", JSON.Str "AT1");
                  ("refresh_token", JSON.Str "RT1");
                  ("token_type", JSON.Str "Bearer");
                  ("expires_in", JSON.Number (S754_finite true 60 0)) ]) |}
           (world Sim2.negative_lifetime)
           (list_to_map [ ("access_token", JSON.Str "AT1");
                          ("refresh_token", JSON.Str "RT1");
                          ("token_type", JSON.Str "Bearer");
                          ("expires_in", JSON.Number (S754_finite true 60 0)) ])
           (S754_finite true 60 0) (-60)%Z 1500000000000000000%Z
           (world Sim2.negative_lifetime) _
           (OAuth2.tokenFromCode Sim.acme "4/abc" Sim2.negative_lifetime).2).
  - vm_compute. reflexivity.
  - vm_compute. reflexivity.
  - vm_compute. reflexivity.
  - reflexivity.
  - lia.
  - vm_compute. reflexivity.
  - vm_compute. reflexivity.
Defined.

(** ** The form of the code exchange *)

Section EscapeFacts.
Import URL.

Lemma QueryUnescape_QueryEscape_step c r :
  QueryUnescape (QueryEscape (String c r)) = String c <$> QueryUnescape (QueryEscape r).
Proof. destruct c as [[] [] [] [] [] [] [] []]; reflexivity. Qed.

(** Unescaping undoes escaping, for every byte string. *)
Lemma QueryUnescape_QueryEscape s : QueryUnescape (QueryEscape s) = Some s.
Proof.
  induction s as [|c s IH]; [done|].
  by rewrite QueryUnescape_QueryEscape_step, IH.
Qed.

(** An escaped string holds none of the bytes that structure a form. *)
Lemma QueryEscape_structure_free sep s :
  sep = "&"%char ∨ sep = "="%char ∨ sep = ";"%char →
  Strings.ContainsByte sep (QueryEscape s) = false.
Proof.
  intros Hsep. induction s as [|c s IH]; [done|].
  assert (Hstep : Strings.ContainsByte sep (QueryEscape (String c s))
                  = Strings.ContainsByte sep (QueryEscape s)).
  { destruct Hsep as [->|[->| ->]];
      destruct c as [[] [] [] [] [] [] [] []]; reflexivity. }
  by rewrite Hstep.
Qed.

(** One field of an encoded form, read back. *)
Lemma parseSetting_escaped c key value :
  Strings.ContainsByte ";" (String c key) = false →
  Strings.ContainsByte "=" (String c key) = false →
  QueryUnescape (String c key) = Some (String c key) →
  parseSetting (String c key +:+ "=" +:+ QueryEscape value) = Some (String c key, value).
Proof.
  intros Hsemi Heq Hkey. unfold parseSetting.
  rewrite !ContainsByte_app, Hsemi, QueryEscape_structure_free by auto.
  change (false || (Strings.ContainsByte ";" "=" || false)) with false. cbv iota.
  rewrite append_String.
  change (String.eqb (String c (key +:+ "=" +:+ QueryEscape value)) "") with false.
  cbv iota. rewrite <- append_String.
  change ("=" +:+ QueryEscape value) with (String "=" (QueryEscape value)).
  rewrite Cut_app_sep by done. rewrite Hkey. cbn.
  by rewrite QueryUnescape_QueryEscape.
Qed.

End EscapeFacts.

(** The form, written out. *)
Lemma buildExchangeCodeForm_eq g code :
  OAuth2.buildExchangeCodeForm g code
  = Strings.Join
      [ "client_id" +:+ "=" +:+ URL.QueryEscape (OAuth2.ClientID (OAuth2.config g));
        "client_secret" +:+ "=" +:+ URL.QueryEscape (OAuth2.ClientSecret (OAuth2.config g));
        "code" +:+ "=" +:+ URL.QueryEscape code;
        "grant_type" +:+ "=" +:+ URL.QueryEscape "authorization_code";
        "redirect_uri" +:+ "=" +:+ URL.QueryEscape (OAuth2.RedirectURL (OAuth2.config g)) ]
      "&".
Proof. reflexivity. Qed.

(** X6. The form [buildExchangeCodeForm] posts reads back, for every code
    and every configuration whatever bytes they hold, as exactly the five
    fields with the values given: nothing in the code, the client id, the
    secret or the redirect URL can end a field or add one. *)
Theorem buildExchangeCodeForm_round_trip g code :
  URL.ParseQuery (OAuth2.buildExchangeCodeForm g code)
  = [ ("client_id", OAuth2.ClientID (OAuth2.config g));
      ("client_secret", OAuth2.ClientSecret (OAuth2.config g));
      ("code", code);
      ("grant_type", "authorization_code");
      ("redirect_uri", OAuth2.RedirectURL (OAuth2.config g)) ].
Proof.
  rewrite buildExchangeCodeForm_eq. unfold URL.ParseQuery.
  rewrite Split_Join by done. cbn [mbind list_bind app].
  rewrite !Split_absent
    by (rewrite !ContainsByte_app, QueryEscape_structure_free by auto; reflexivity).
  cbn [app omap list_omap].
  by rewrite !parseSetting_escaped.
Qed.

(** ** The authorization URL, read back *)








(** ** A token just exchanged authenticates *)

(** X10. On the token store of the design (records keyed by access token,
    [Save] an upsert) and a provider that answers a request the same way
    each time: after a successful [ExchangeCode], [Authenticate] with the
    access token it returned succeeds with the same result, as long as the
    lookup does not fail; it finds the token [ExchangeCode] saved. *)
Theorem Authenticate_after_ExchangeCode g code (w : Sim.World) calls auth s' :
  Sim.Get_fails w = None →
  OAuth2.ExchangeCode g code (mkState w calls) = (Ok auth, s') →
  ∃ t userRes,
    Sim.records (world s') !! OAuth2.AccessToken auth = Some t
    ∧ OAuth2.Authenticate g (OAuth2.AccessToken auth) s'
      = (Ok auth,
         mkState (world s') (log s' ++
           [ tokens_Get_call (OAuth2.AccessToken auth) (Some t, None);
             client_Do_call (OAuth2.userRequest (OAuth2.AccessToken auth))
               (inr userRes) ])).
Proof.
  intros Hget Hrun.
  apply ExchangeCode_Ok_inv in Hrun
    as (t & s1 & ui & s2 & w' & Htok & Hui & _ & Hsave & -> & ->).
  apply tokenFromCode_Ok_inv in Htok
    as (res & w1 & tmap & f & now & w2 & Hdo & _ & _ & _ & _ & _ & Hnow & _ & _ & ->).
  cbn in Hdo, Hnow. injection Hdo as _ <-. injection Hnow as _ <-.
  apply getUserInfo_Ok_inv in Hui as (userRes & w3 & Hdo & Hdec & ->).
  cbn in Hdo. injection Hdo as Hserver <-.
  cbn in Hsave. unfold Sim.Save in Hsave.
  destruct (Sim.Save_fails w) as [e|] eqn:Hsf; [done|]. injection Hsave as <-.
  exists (OAuth2.set_Email t (OAuth2.userInfo_Email ui)), userRes.
  cbn [world log OAuth2.AccessToken Sim.records].
  assert (Hfound :
    <[Models.AccessToken t := OAuth2.set_Email t (OAuth2.userInfo_Email ui)]>
      (Sim.records w) !! Models.AccessToken t
    = Some (OAuth2.set_Email t (OAuth2.userInfo_Email ui)))
    by apply lookup_insert_eq.
  split; [exact Hfound|].
  etrans.
  { eapply (Authenticate_Ok g (Models.AccessToken t) _
             (OAuth2.set_Email t (OAuth2.userInfo_Email ui)) _ ui).
    - cbn [tokens_Get Sim.deps world]. unfold Sim.Get.
      cbn [Sim.Get_fails Sim.records]. by rewrite Hget, Hfound.
    - unfold OAuth2.getUserInfo. erewrite bind_Ok.
      + cbn. rewrite Hdec. reflexivity.
      + apply Do_Ok. cbn. by rewrite Hserver. }
  cbn. by rewrite Hget, <- (app_assoc _ [_] [_]).
Qed.

Lemma Authenticate_after_ExchangeCode_witness :
  ∃ t userRes,
    Sim.records (world (OAuth2.ExchangeCode Sim.acme "4/abc" Sim.scenario2).2) !! "AT1"
    = Some t
    ∧ OAuth2.Authenticate Sim.acme "AT1"
        (OAuth2.ExchangeCode Sim.acme "4/abc" Sim.scenario2).2
      = (Ok {| OAuth2.AccessToken := "AT1"; OAuth2.Email := "a@acme.com" |},
         mkState (world (OAuth2.ExchangeCode Sim.acme "4/abc" Sim.scenario2).2)
           (log (OAuth2.ExchangeCode Sim.acme "4/abc" Sim.scenario2).2 ++
            [ tokens_Get_call "AT1" (Some t, None);
              client_Do_call (OAuth2.userRequest "AT1") (inr userRes) ])).
Proof.
  apply (Authenticate_after_ExchangeCode Sim.acme "4/abc" (world Sim.scenario2) []
           {| OAuth2.AccessToken := "AT1"; OAuth2.Email := "a@acme.com" |}).
  - reflexivity.
  - vm_compute. reflexivity.
Defined.

(** ** Creating and binding roles *)

Section Inserts.
Import Repositories Inserts.

(** X11. A role that [Create] has stored and [Bind] has then bound to a
    service account is among the roles [ForServiceAccountID] returns for
    that account, under the id the database gave it and the name it was
    created with. *)
Theorem Create_Bind_ForServiceAccountID sch r sa st r' st1 st2 :
  Create sch r st = ((r', None), st1) →
  Bind sch r' sa st1 = (None, st2) →
  (∀ rows, deliver st rows ≡ₚ rows) →
  ∃ roles,
    ForServiceAccountID st2 (Models.ServiceAccount_ID sa) = Ok roles
    ∧ r' ∈ roles
    ∧ Models.Role_Name r' = Models.Role_Name r
    ∧ Models.Role_ID r' = new_id sch st (Models.Role_Name r).
Proof.
  unfold Create, Bind, insert_role, insert_binding. intros Hcreate Hbind Hdeliver.
  destruct (broken st) as [e|] eqn:Hup; [done|].
  destruct (refuses_role sch st (Models.Role_Name r)) as [e|]; [done|].
  injection Hcreate as <- <-. cbn in Hbind.
  destruct (refuses_binding sch _ _) as [e|]; [done|]. injection Hbind as <-.
  eexists. unfold ForServiceAccountID, Query_roles. cbn [broken deliver].
  split_and!; [done| |done..].
  rewrite Hdeliver. apply elem_of_select_roles. unfold bound_role.
  cbn [roles_table role_bindings_table]. split.
  - apply elem_of_app. right. by apply list_elem_of_singleton.
  - eexists. split; [apply elem_of_app; right; by apply list_elem_of_singleton|].
    done.
Qed.

Lemma Create_Bind_ForServiceAccountID_witness :
  ∃ roles,
    ForServiceAccountID
      (Bind free {| Models.Role_ID := "id-auditor"; Models.Role_Name := "auditor" |}
         {| Models.ServiceAccount_ID := "sa1" |}
         (Create free {| Models.Role_ID := ""; Models.Role_Name := "auditor" |}
            Sim.storage).2).2 "sa1"
    = Ok roles
    ∧ {| Models.Role_ID := "id-auditor"; Models.Role_Name := "auditor" |} ∈ roles
    ∧ "auditor" = "auditor"
    ∧ "id-auditor" = new_id free Sim.storage "auditor".
Proof.
  apply (Create_Bind_ForServiceAccountID free
           {| Models.Role_ID := ""; Models.Role_Name := "auditor" |}
           {| Models.ServiceAccount_ID := "sa1" |} Sim.storage
           {| Models.Role_ID := "id-auditor"; Models.Role_Name := "auditor" |}
           (Create free {| Models.Role_ID := ""; Models.Role_Name := "auditor" |}
              Sim.storage).2).
  - reflexivity.
  - reflexivity.
  - intros rows. apply reverse_Permutation.
Defined.

(** X12. What [Bind] changes. A [Bind] that fails leaves the database as it
    was. A [Bind] that succeeds adds to the roles of its service account the
    roles of the table that have the id of the role bound (none, if no role
    has it) and nothing else, and leaves the roles of every other account as
    they were. *)
Theorem Bind_effect sch r sa st res st' serviceAccountID :
  Bind sch r sa st = (res, st') →
  (∀ rows, deliver st rows ≡ₚ rows) →
  match res with
  | Some _ => st' = st
  | None =>
      ∃ before after,
        ForServiceAccountID st serviceAccountID = Ok before
        ∧ ForServiceAccountID st' serviceAccountID = Ok after
        ∧ ∀ x, x ∈ after
               ↔ x ∈ before
                 ∨ (serviceAccountID = Models.ServiceAccount_ID sa
                    ∧ x ∈ roles_table st
                    ∧ Models.Role_ID x = Models.Role_ID r)
  end.
Proof.
  unfold Bind, insert_binding. intros Hbind Hdeliver.
  destruct (broken st) as [e|] eqn:Hup; [by injection Hbind as <- <-|].
  destruct (refuses_binding sch _ _) as [e|]; [by injection Hbind as <- <-|].
  injection Hbind as <- <-.
  eexists _, _. unfold ForServiceAccountID, Query_roles. cbn [broken deliver].
  rewrite Hup. split_and!; [done..|]. intros x.
  rewrite !Hdeliver, !elem_of_select_roles. unfold bound_role.
  cbn [roles_table role_bindings_table]. split.
  - intros (Hx & rb & Hrb & Hid & Hsa).
    apply elem_of_app in Hrb as [Hrb|Hrb%list_elem_of_singleton].
    + left. eauto.
    + subst rb. cbn in *. right. by split_and!.
  - intros [(Hx & rb & Hrb & Hid & Hsa)|(-> & Hx & Hid)].
    + split; [done|]. exists rb. split; [|done]. apply elem_of_app. by left.
    + split; [done|]. eexists. split.
      * apply elem_of_app. right. by apply list_elem_of_singleton.
      * done.
Qed.

Lemma Bind_effect_witness :
  ∃ before after,
    ForServiceAccountID Sim.storage "sa2" = Ok before
    ∧ ForServiceAccountID
        (Bind free Sim.viewer {| Models.ServiceAccount_ID := "sa2" |} Sim.storage).2 "sa2"
      = Ok after
    ∧ ∀ x, x ∈ after
           ↔ x ∈ before
             ∨ ("sa2" = "sa2"
                ∧ x ∈ roles_table Sim.storage
                ∧ Models.Role_ID x = Models.Role_ID Sim.viewer).
Proof.
  apply (Bind_effect free Sim.viewer {| Models.ServiceAccount_ID := "sa2" |}
           Sim.storage None).
  - reflexivity.
  - intros rows. apply reverse_Permutation.
Defined.

(** One more binding row adds as many result rows as there are roles it
    joins with. *)
Lemma length_select_roles_cons roles rb bindings serviceAccountID brk dlv :
  length (select_roles {| roles_table := roles; role_bindings_table := rb :: bindings;
                          broken := brk; deliver := dlv |} serviceAccountID)
  = length (filter (λ r, Models.RoleID rb = Models.Role_ID r
                         ∧ Models.ServiceAccountID rb = serviceAccountID) roles)
    + length (select_roles {| roles_table := roles; role_bindings_table := bindings;
                              broken := brk; deliver := dlv |} serviceAccountID).
Proof.
  unfold select_roles. cbn [roles_table role_bindings_table].
  induction roles as [|r roles IH]; [done|].
  rewrite !(bind_cons _ r roles), (bind_cons _ rb bindings), !length_app, IH.
  rewrite filter_cons. repeat case_decide; cbn [length]; try lia; tauto.
Qed.

(** With ids that identify the roles, a binding joins with one role. *)
Lemma length_filter_role_id (roles : list Models.Role) i :
  NoDup (Models.Role_ID <$> roles) →
  (∃ r, r ∈ roles ∧ Models.Role_ID r = i) →
  length (filter (λ r, i = Models.Role_ID r) roles) = 1.
Proof.
  induction roles as [|r roles IH]; intros Hnd (x & Hx & Hid).
  { by apply not_elem_of_nil in Hx. }
  rewrite fmap_cons in Hnd. apply NoDup_cons in Hnd as [Hfresh Hnd].
  rewrite filter_cons. case_decide as Hr.
  - cbn [length]. f_equal.
    destruct (filter _ roles) as [|y l] eqn:Hf; [done|]. exfalso.
    assert (Hy : y ∈ filter (λ r0, i = Models.Role_ID r0) roles)
      by (rewrite Hf; left).
    apply list_elem_of_filter in Hy as [Hyi Hy]. apply Hfresh.
    rewrite <- Hr, Hyi. by apply list_elem_of_fmap_2.
  - apply IH; [done|]. exists x. split; [|done].
    apply elem_of_cons in Hx as [->|Hx]; [congruence|done].
Qed.

(** X13. The query returns one row per binding, not one per role: when the
    ids of the roles are distinct and every binding of the account names a
    role of the table, [ForServiceAccountID] returns as many roles as the
    account has bindings, so a role bound twice is returned twice. *)
Theorem ForServiceAccountID_one_row_per_binding st serviceAccountID :
  broken st = None →
  (∀ rows, deliver st rows ≡ₚ rows) →
  NoDup (Models.Role_ID <$> roles_table st) →
  (∀ rb, rb ∈ bindings_of st serviceAccountID →
         ∃ r, r ∈ roles_table st ∧ Models.Role_ID r = Models.RoleID rb) →
  ∃ roles,
    ForServiceAccountID st serviceAccountID = Ok roles
    ∧ length roles = length (bindings_of st serviceAccountID).
Proof.
  intros Hup Hdeliver Hnd Hrefs.
  exists (deliver st (select_roles st serviceAccountID)).
  unfold ForServiceAccountID, Query_roles. rewrite Hup. split; [done|].
  rewrite Hdeliver. clear Hup Hdeliver.
  destruct st as [roles bindings brk dlv]. unfold bindings_of in *.
  cbn [roles_table role_bindings_table] in *.
  induction bindings as [|rb bindings IH].
  { unfold select_roles. cbn. clear. induction roles as [|r roles IH]; [done|].
    cbn. by rewrite IH. }
  rewrite length_select_roles_cons, filter_cons.
  case_decide as Hsa.
  - rewrite IH by (intros rb' Hrb'; apply Hrefs; rewrite filter_cons, decide_True by done;
                   by right).
    assert (Hone : length (filter (λ r, Models.RoleID rb = Models.Role_ID r
                                       ∧ Models.ServiceAccountID rb = serviceAccountID)
                            roles) = 1).
    { rewrite <- (length_filter_role_id roles (Models.RoleID rb) Hnd).
      - f_equal. apply list_filter_iff. intros r. split; [by intros [? _]|done].
      - apply Hrefs. rewrite filter_cons, decide_True by done. left. }
    rewrite Hone. done.
  - rewrite IH by (intros rb' Hrb'; apply Hrefs; by rewrite filter_cons, decide_False).
    assert (Hnone : filter (λ r, Models.RoleID rb = Models.Role_ID r
                                 ∧ Models.ServiceAccountID rb = serviceAccountID) roles = []).
    { clear -Hsa. induction roles as [|r roles IH]; [done|].
      rewrite filter_cons, decide_False by (by intros [_ ?]). done. }
    by rewrite Hnone.
Qed.

End Inserts.

Lemma ForServiceAccountID_one_row_per_binding_witness :
  ∃ roles,
    Repositories.ForServiceAccountID
      (Inserts.Bind Inserts.free Sim.admin {| Models.ServiceAccount_ID := "sa1" |}
         Sim.storage).2 "sa1"
    = Ok roles
    ∧ length roles
      = length (Repositories.bindings_of
                  (Inserts.Bind Inserts.free Sim.admin
                     {| Models.ServiceAccount_ID := "sa1" |} Sim.storage).2 "sa1").
Proof.
  apply ForServiceAccountID_one_row_per_binding.
  - reflexivity.
  - intros rows. apply reverse_Permutation.
  - vm_compute. apply NoDup_cons. split; [|apply NoDup_singleton].
    intros Hin%list_elem_of_singleton. discriminate Hin.
  - apply Forall_forall. vm_compute. repeat apply Forall_cons_2.
    + exists Sim.admin. split; [repeat constructor|reflexivity].
    + exists Sim.viewer. split; [repeat constructor|reflexivity].
    + exists Sim.admin. split; [repeat constructor|reflexivity].
    + by apply Forall_nil.
Defined.

Example admin_bound_twice :
  Repositories.ForServiceAccountID
    (Inserts.Bind Inserts.free Sim.admin {| Models.ServiceAccount_ID := "sa1" |}
       Sim.storage).2 "sa1"
  = Ok [Sim.viewer; Sim.admin; Sim.admin].
Proof. reflexivity. Qed.

(** ** An answer of the identity endpoint that names no identity *)

(** Members that select no field leave the struct as it is. *)
Lemma foldl_userInfo_member_ignored members acc :
  Forall (λ kv, OAuth2.userInfo_field_of kv.1 = None) members →
  foldl OAuth2.userInfo_member acc members = acc.
Proof.
  intros Hall. revert acc.
  induction Hall as [|kv members Hkv _ IH]; intros acc; [done|].
  cbn [foldl]. rewrite IH. destruct acc as [ui err].
  unfold OAuth2.userInfo_member. by rewrite Hkv.
Qed.

(** X14. With an empty allow-list, [ExchangeCode] accepts an answer of the
    identity endpoint that names no identity. When the answer is, with
    whatever status code, a JSON object without a member named [email] or
    [hd] (such as the error document sent with a 401), the exchange
    succeeds: the token is saved with an empty email, and the result
    carries the access token and an empty email. *)
Theorem ExchangeCode_without_identity {W} `{Deps W} g code (s : State W)
    t s1 res w2 members w3 :
  OAuth2.HostedDomains (OAuth2.config g) = [] →
  OAuth2.tokenFromCode g code s = (Ok t, s1) →
  client_Do (OAuth2.userRequest (Models.AccessToken t)) (world s1) = (inr res, w2) →
  HTTP.Body res = Some (JSON.Object members) →
  Forall (λ kv, OAuth2.userInfo_field_of kv.1 = None) members →
  tokens_Save (OAuth2.set_Email t "") w2 = (None, w3) →
  OAuth2.ExchangeCode g code s
  = (Ok {| OAuth2.AccessToken := Models.AccessToken t; OAuth2.Email := "" |},
     mkState w3 (log s1 ++
       [ client_Do_call (OAuth2.userRequest (Models.AccessToken t)) (inr res);
         tokens_Save_call (OAuth2.set_Email t "") None ])).
Proof.
  intros Hopen Htok Hdo Hbody Hall Hsave.
  assert (Hui : OAuth2.getUserInfo (Models.AccessToken t) s1
                = (Ok {| OAuth2.userInfo_Email := ""; OAuth2.HostedDomain := "" |},
                   mkState w2 (log s1 ++
                     [client_Do_call (OAuth2.userRequest (Models.AccessToken t)) (inr res)]))).
  { unfold OAuth2.getUserInfo. erewrite bind_Ok; [|by apply Do_Ok].
    cbn. rewrite Hbody. unfold OAuth2.Unmarshal_userInfo.
    by rewrite foldl_userInfo_member_ignored. }
  unfold OAuth2.ExchangeCode.
  erewrite bind_Ok; [|exact Htok]. erewrite bind_Ok; [|exact Hui].
  unfold OAuth2.checkHostedDomain. rewrite Hopen. cbn [negb OAuth2.HostedDomain
    OAuth2.userInfo_Email].
  erewrite bind_Ok.
  - cbn. reflexivity.
  - unfold Save. cbn [world log]. rewrite Hsave. cbn. by rewrite <- app_assoc.
Qed.

Lemma ExchangeCode_without_identity_witness :
  OAuth2.ExchangeCode Sim2.with_query "4/abc" Sim2.identity_refused
  = (Ok {| OAuth2.AccessToken := "AT1"; OAuth2.Email := "" |},
     mkState (Sim.Save
                {| Models.AccessToken := "AT1"; Models.RefreshToken := "RT1";
                   Models.TokenType := "Bearer";
                   Models.Expiry := 1500003600000000000%Z; Models.Email := "" |}
                (world Sim2.identity_refused)).2
       (log (OAuth2.tokenFromCode Sim2.with_query "4/abc" Sim2.identity_refused).2 ++
        [ client_Do_call (OAuth2.userRequest "AT1")
            (inr {| HTTP.StatusCode := 401%Z; HTTP.Body := Some Sim2.unauthorizedJSON |});
          tokens_Save_call
            {| Models.AccessToken := "AT1"; Models.RefreshToken := "RT1";
               Models.TokenType := "Bearer";
               Models.Expiry := 1500003600000000000%Z; Models.Email := "" |} None ])).
Proof.
  apply (ExchangeCode_without_identity Sim2.with_query "4/abc" Sim2.identity_refused
           {| Models.AccessToken := "AT1"; Models.RefreshToken := "RT1";
              Models.TokenType := "Bearer";
              Models.Expiry := 1500003600000000000%Z; Models.Email := "" |}
           (OAuth2.tokenFromCode Sim2.with_query "4/abc" Sim2.identity_refused).2
           {| HTTP.StatusCode := 401%Z; HTTP.Body := Some Sim2.unauthorizedJSON |}
           (world Sim2.identity_refused)
           [ ("error", JSON.Object [ ("code", JSON.Number (Sim.float_of_N 401));
                                     ("message", JSON.Str "Invalid Credentials");
                                     ("status", JSON.Str "UNAUTHENTICATED") ]) ]).
  - reflexivity.
  - vm_compute. reflexivity.
  - vm_compute. reflexivity.
  - reflexivity.
  - repeat constructor.
  - vm_compute. reflexivity.
Defined.
